(** * The rekor [upload] command: a shallow embedding and its properties

    Source: [cmd/cli/app/upload.go].  The command reads a detached
    signature and a public key from the file system, downloads an
    artifact, hashes it, checks the signature and posts an entry to the
    log server.

    Layout of this development:
    - byte and string helpers, [hex.EncodeToString], [strings.HasSuffix];
    - [crypto/sha256], written out over 32-bit words;
    - the libraries the command calls and whose code is not part of the
      repository (gzip, armor, openpgp, json, http), as a record [Lib] of
      operations and a record [World] of what the environment answers;
    - [isArmorProtected], [hashGenerator] and the body of [uploadCmd.Run];
    - a model of the armor framing scan and a small reference [Lib] used to
      run the command on concrete inputs;
    - the theorems. *)

From Stdlib Require Import ZArith NArith List String Ascii Bool Lia.
From Stdlib Require Import Init.Byte DecimalString.
Import ListNotations.

Local Open Scope string_scope.
Local Open Scope Z_scope.
Local Open Scope list_scope.

(* ================================================================= *)
(** ** Bytes and Go strings *)

Definition bytes := list byte.

Definition Z_of_byte (b : byte) : Z := Z.of_N (Byte.to_N b).

Definition byte_of_Z (z : Z) : byte :=
  match Byte.of_N (Z.to_N (z mod 256)) with
  | Some b => b
  | None => x00
  end.

Definition bytes_of_string (s : string) : bytes := list_byte_of_string s.

(** [strings.HasSuffix(s, suffix)]:
    [len(s) >= len(suffix) && s[len(s)-len(suffix):] == suffix]. *)
Definition HasSuffix (s suffix : string) : bool :=
  (String.length suffix <=? String.length s)%nat &&
  String.eqb
    (substring (String.length s - String.length suffix)
               (String.length suffix) s)
    suffix.

(* ================================================================= *)
(** ** encoding/hex *)

Module Hex.

Definition hextable : string := "0123456789abcdef".

Definition digit (n : Z) : ascii :=
  match String.get (Z.to_nat n) hextable with
  | Some c => c
  | None => "0"%char
  end.

(** [dst[j] = hextable[v>>4]; dst[j+1] = hextable[v&0x0f]] *)
Fixpoint EncodeToString (src : bytes) : string :=
  match src with
  | [] => EmptyString
  | v :: rest =>
      String (digit (Z.shiftr (Z_of_byte v) 4))
        (String (digit (Z.land (Z_of_byte v) 15)) (EncodeToString rest))
  end.

Definition is_lower_hex (c : ascii) : bool :=
  existsb (Ascii.eqb c) (list_ascii_of_string hextable).

End Hex.

(* ================================================================= *)
(** ** crypto/sha256 *)

Module SHA256.

Definition mask32 : Z := 0xffffffff.
Definition u32 (x : Z) : Z := Z.land x mask32.
Definition add32 (x y : Z) : Z := u32 (x + y).
Definition not32 (x : Z) : Z := Z.lxor x mask32.

(** [bits.RotateLeft32(x, -k)] *)
Definition rotr (k x : Z) : Z :=
  Z.lor (Z.shiftr x k) (u32 (Z.shiftl x (32 - k))).

(** The value of a string of hex digits, and the 32-bit words a string of
    them spells, eight digits a word. *)
Definition hex_value (c : ascii) : Z :=
  let n := Z.of_nat (nat_of_ascii c) in
  if (48 <=? n) && (n <=? 57) then n - 48
  else if (97 <=? n) && (n <=? 102) then n - 87
  else 0.

Fixpoint words_of_hex (fuel : nat) (s : string) : list Z :=
  match fuel with
  | O => []
  | S fuel' =>
      match s with
      | EmptyString => []
      | _ =>
          fold_left (fun acc c => 16 * acc + hex_value c)
                    (list_ascii_of_string (substring 0 8 s)) 0
          :: words_of_hex fuel' (substring 8 (String.length s - 8) s)
      end
  end.

(** The round constants [_K], in the order of the table of
    [sha256block.go]. *)
Definition _K : list Z :=
  Eval vm_compute in
  words_of_hex 64
    ("428a2f9871374491b5c0fbcfe9b5dba53956c25b59f111f1923f82a4ab1c5ed5"
     ++ "d807aa9812835b01243185be550c7dc372be5d7480deb1fe9bdc06a7c19bf174"
     ++ "e49b69c1efbe47860fc19dc6240ca1cc2de92c6f4a7484aa5cb0a9dc76f988da"
     ++ "983e5152a831c66db00327c8bf597fc7c6e00bf3d5a7914706ca635114292967"
     ++ "27b70a852e1b21384d2c6dfc53380d13650a7354766a0abb81c2c92e92722c85"
     ++ "a2bfe8a1a81a664bc24b8b70c76c51a3d192e819d6990624f40e3585106aa070"
     ++ "19a4c1161e376c082748774c34b0bcb5391c0cb34ed8aa4a5b9cca4f682e6ff3"
     ++ "748f82ee78a5636f84c878148cc7020890befffaa4506cebbef9a3f7c67178f2")%string.

(** The eight chaining words [dig.h]. *)
Record state := mkState {
  h0 : Z; h1 : Z; h2 : Z; h3 : Z; h4 : Z; h5 : Z; h6 : Z; h7 : Z }.

Definition init : state :=
  mkState 0x6a09e667 0xbb67ae85 0x3c6ef372 0xa54ff53a
          0x510e527f 0x9b05688c 0x1f83d9ab 0x5be0cd19.

(** [w[i] = uint32(p[j])<<24 | uint32(p[j+1])<<16 | ...] *)
Fixpoint be_words (p : bytes) : list Z :=
  match p with
  | a :: b :: c :: d :: rest =>
      Z.lor (Z.lor (Z.lor (Z.shiftl (Z_of_byte a) 24)
                          (Z.shiftl (Z_of_byte b) 16))
                   (Z.shiftl (Z_of_byte c) 8))
            (Z_of_byte d)
      :: be_words rest
  | _ => []
  end.

Definition sigma0 (v : Z) : Z :=
  Z.lxor (Z.lxor (rotr 7 v) (rotr 18 v)) (Z.shiftr v 3).
Definition sigma1 (v : Z) : Z :=
  Z.lxor (Z.lxor (rotr 17 v) (rotr 19 v)) (Z.shiftr v 10).

(** The message schedule.  [rw] holds the words computed so far, newest
    first, so that [w[i-2]] is at index 1, [w[i-7]] at 6, [w[i-15]] at 14
    and [w[i-16]] at 15. *)
Fixpoint schedule (n : nat) (rw : list Z) : list Z :=
  match n with
  | O => rw
  | S n' =>
      let t1 := sigma1 (nth 1 rw 0) in
      let t2 := sigma0 (nth 14 rw 0) in
      schedule n'
        (add32 (add32 (add32 t1 (nth 6 rw 0)) t2) (nth 15 rw 0) :: rw)
  end.

Definition round (s : state) (kw : Z * Z) : state :=
  let '(mkState a b c d e f g h) := s in
  let t1 :=
    add32 (add32 (add32 (add32 h
        (Z.lxor (Z.lxor (rotr 6 e) (rotr 11 e)) (rotr 25 e)))
        (Z.lxor (Z.land e f) (Z.land (not32 e) g)))
        (fst kw)) (snd kw) in
  let t2 :=
    add32 (Z.lxor (Z.lxor (rotr 2 a) (rotr 13 a)) (rotr 22 a))
          (Z.lxor (Z.lxor (Z.land a b) (Z.land a c)) (Z.land b c)) in
  mkState (add32 t1 t2) a b c (add32 d t1) e f g.

(** One pass of the loop of [blockGeneric] over a 64-byte chunk. *)
Definition block (s : state) (chunk : bytes) : state :=
  let w := rev (schedule 48 (rev (be_words chunk))) in
  let r := fold_left round (combine _K w) s in
  mkState (add32 (h0 s) (h0 r)) (add32 (h1 s) (h1 r))
          (add32 (h2 s) (h2 r)) (add32 (h3 s) (h3 r))
          (add32 (h4 s) (h4 r)) (add32 (h5 s) (h5 r))
          (add32 (h6 s) (h6 r)) (add32 (h7 s) (h7 r)).

(** [for len(p) >= chunk { ...; p = p[chunk:] }] *)
Fixpoint blocks (fuel : nat) (s : state) (p : bytes) : state :=
  match fuel with
  | O => s
  | S fuel' =>
      if (64 <=? List.length p)%nat
      then blocks fuel' (block s (firstn 64 p)) (skipn 64 p)
      else s
  end.

(** Big-endian encodings used by [checkSum]. *)
Definition be32 (x : Z) : bytes :=
  [ byte_of_Z (Z.shiftr x 24); byte_of_Z (Z.shiftr x 16);
    byte_of_Z (Z.shiftr x 8); byte_of_Z x ].

Definition be64 (x : Z) : bytes :=
  be32 (Z.shiftr x 32) ++ be32 x.

(** [checkSum]: a [0x80] byte, zeros up to 56 mod 64, then the length in
    bits as a [uint64]. *)
Definition pad (msg : bytes) : bytes :=
  let len := Z.of_nat (List.length msg) in
  let zeros := Z.to_nat ((55 - len) mod 64) in
  msg ++ x80 :: repeat x00 zeros
      ++ be64 (Z.land (Z.shiftl len 3) 0xffffffffffffffff).

Definition digest_bytes (s : state) : bytes :=
  be32 (h0 s) ++ be32 (h1 s) ++ be32 (h2 s) ++ be32 (h3 s) ++
  be32 (h4 s) ++ be32 (h5 s) ++ be32 (h6 s) ++ be32 (h7 s).

(** The digest of everything written to a fresh hasher. *)
Definition Sum256 (msg : bytes) : bytes :=
  let p := pad msg in
  digest_bytes (blocks (S (List.length p / 64)) init p).

End SHA256.

(* ================================================================= *)
(** ** Results, effects and the trace of a run *)

(** A Go [error] value, kept as the text of its [Error()] method. *)
Definition error := string.

Inductive Result (A : Type) : Type :=
| Ok (a : A)
| Err (e : error).
Arguments Ok {A} a.
Arguments Err {A} e.

Inductive Level := Info | Error | Fatal.

(** The two entry types of the source; fields in the order of the struct
    declarations: [SHA], [URL], [Signature], [PublicKey]. *)
Inductive Entry :=
| RekorEntry (SHA URL : string) (Signature PublicKey : bytes)
| RekorArmorEntry (SHA URL : string) (Signature PublicKey : string).

(** [time.Duration] counts nanoseconds. *)
Definition time_Second : Z := 1000000000.

(** What a run does that can be seen from outside. *)
Inductive Event :=
| EvLog (lvl : Level) (msg : string)
| EvHttpGet (url : string)
| EvMarshal (e : Entry)
| EvHttpPost (url : string) (body : bytes) (timeout : Z).

Inductive Outcome (A : Type) : Type :=
| Ret (a : A)
| Exit (code : Z)
| Panic (msg : string).
Arguments Ret {A} a.
Arguments Exit {A} code.
Arguments Panic {A} msg.

(** A computation: the events it produced, in order, and how it ended. *)
Definition M (A : Type) : Type := (list Event * Outcome A)%type.

Definition ret {A} (a : A) : M A := ([], Ret a).

Definition bind {A B} (m : M A) (k : A -> M B) : M B :=
  match m with
  | (t, Ret a) => let '(t', o) := k a in (t ++ t', o)
  | (t, Exit c) => (t, Exit c)
  | (t, Panic s) => (t, Panic s)
  end.

Notation "x <- m ;; k" := (bind m (fun x => k))
  (at level 61, m at next level, right associativity).
Notation "' p <- m ;; k" := (bind m (fun x => let p := x in k))
  (at level 61, p pattern, m at next level, right associativity).
Notation "m ;;; k" := (bind m (fun _ => k))
  (at level 61, right associativity).

Definition emit (e : Event) : M unit := ([e], Ret tt).

(** Modelled from the spec: the logger [log.Logger] of [pkg/log] is not
    under [src/].  [Info] and [Error] write a line and return; [Fatal]
    writes a line and ends the process with a non-zero status (section 6,
    "any fatal stage failure terminates the process with non-zero
    status").  The line is the arguments printed one after the other. *)
Definition log_Info (msg : string) : M unit := emit (EvLog Info msg).
Definition log_Error (msg : string) : M unit := emit (EvLog Error msg).
Definition log_Fatal {A} (msg : string) : M A := ([EvLog Fatal msg], Exit 1).

(** [os.Exit(code)] *)
Definition os_Exit {A} (code : Z) : M A := ([], Exit code).

(** A nil pointer dereference. *)
Definition nil_dereference {A} : M A :=
  ([], Panic "invalid memory address or nil pointer dereference").

(** The exit status of the process: 0 when [Run] returns, the argument of
    [os.Exit], 2 after a panic. *)
Definition exit_status {A} (o : Outcome A) : Z :=
  match o with
  | Ret _ => 0
  | Exit c => c
  | Panic _ => 2
  end.

(** The value a computation returned, [d] when it did not return. *)
Definition returned {A} (d : A) (o : Outcome A) : A :=
  match o with
  | Ret a => a
  | _ => d
  end.

Definition is_post (e : Event) : bool :=
  match e with EvHttpPost _ _ _ => true | _ => false end.
Definition is_marshal (e : Event) : bool :=
  match e with EvMarshal _ => true | _ => false end.
(** Neither the serialization of an entry nor a request to the log
    server. *)
Definition quiet (e : Event) : bool := negb (is_post e || is_marshal e).

Definition is_get (e : Event) : bool :=
  match e with EvHttpGet _ => true | _ => false end.



Definition is_error_log (e : Event) : bool :=
  match e with EvLog Error _ => true | EvLog Fatal _ => true | _ => false end.

(* ================================================================= *)
(** ** Files *)

(** An open [*os.File]: its content, the read offset, and whether [Seek]
    works on it (it does on a regular file, not on a pipe). *)
Record File := mkFile {
  data : bytes;
  offset : nat;
  seekable : bool }.

(** A variable of type [*os.File]; [None] is the nil pointer that
    [os.Open] returns with an error. *)
Definition Handle := option File.

(** What a reader of a handle sees: the bytes from the offset on, or, on
    a nil file, a [Read] that fails with [os.ErrInvalid]. *)
Inductive Source :=
| Bytes (rest : bytes)
| Broken (e : error).

Definition ErrInvalid : error := "invalid argument".
Definition ErrIllegalSeek : error := "seek: illegal seek".

Definition source_of (h : Handle) : Source :=
  match h with
  | None => Broken ErrInvalid
  | Some f => Bytes (skipn (offset f) (data f))
  end.

(** The handle after a reader took [n] bytes from it. *)
Definition advance (h : Handle) (n : nat) : Handle :=
  match h with
  | None => None
  | Some f =>
      Some (mkFile (data f)
              (offset f + Nat.min n (List.length (data f) - offset f))
              (seekable f))
  end.

(** [f.Seek(0, io.SeekStart)] *)
Definition Seek_start (h : Handle) : Handle * option error :=
  match h with
  | None => (None, Some ErrInvalid)
  | Some f =>
      if seekable f
      then (Some (mkFile (data f) 0 (seekable f)), None)
      else (h, Some ErrIllegalSeek)
  end.

(** How a stage ends when it neither crashes nor exits with a status
    other than 1. *)
Definition orderly {A} (o : Outcome A) : Prop :=
  match o with
  | Ret _ => True
  | Exit c => c = 1
  | Panic _ => False
  end.

Definition not_get (e : Event) : bool := negb (is_get e).

(** A handle past whose offset nothing is left to read: a nil handle, or
    a file at or after its end. *)
Definition at_end (h : Handle) : Prop :=
  match h with
  | None => True
  | Some f => (List.length (data f) <= offset f)%nat
  end.

(* ================================================================= *)
(** ** The libraries and the environment *)

(** A [*gzip.Reader] after its header was read: the bytes its [Read]
    delivers, and the error that ends them ([None] for [io.EOF]). *)
Record GzReader := mkGz {
  gz_out : bytes;
  gz_err : option error }.

(** [getLeafResponse], without the [Leaf] field, which is never read. *)
Record getLeafResponse := mkLeafResp {
  Status_Code : string;
  Key : bytes }.

(** The library functions the command calls.  A function that reads from
    an [io.Reader] is given the [Source] and also tells how many bytes it
    took from it. *)
Record Lib := mkLib {
  EntityList : Type;
  gzip_NewReader : bytes -> Result GzReader;
  armor_Decode : Source -> option error * nat;
  openpgp_ReadKeyRing : Source -> (EntityList * option error) * nat;
  openpgp_ReadArmoredKeyRing : Source -> (EntityList * option error) * nat;
  openpgp_CheckDetachedSignature :
    EntityList -> bytes -> Source -> option error * nat;
  openpgp_CheckArmoredDetachedSignature :
    EntityList -> bytes -> Source -> option error * nat;
  json_Marshal : Entry -> Result bytes;
  json_Unmarshal : bytes -> Result getLeafResponse;
  http_NewRequest : string -> string -> option error }.

(** An [*http.Response]: the status, the bytes [ioutil.ReadAll] gets from
    the body, and the error that may end them. *)
Record Response := mkResp {
  StatusCode : Z;
  Body : bytes;
  BodyErr : option error }.

(** The configuration, the file system and the network of one run.
    [pkg.FormatSignature] and [pkg.FormatPubKey] belong to [pkg], which is
    not under [src/]; they are taken as given. *)
Record World := mkWorld {
  viper_GetString : string -> string;
  pkg_FormatSignature : string -> Result string;
  pkg_FormatPubKey : string -> Result string;
  http_Get : string -> option Response * option error;
  os_Open : string -> Result File;
  ioutil_ReadFile : string -> Result bytes;
  client_Do : string -> bytes -> Z -> Result Response }.

(* ================================================================= *)
(** ** The program *)

Section Upload.

Variable L : Lib.

(** [func isArmorProtected(f *os.File) bool] *)
Definition isArmorProtected (f : Handle) : M (Handle * bool) :=
  let '(decodeErr, n) := armor_Decode L (source_of f) in
  let '(f', seekErr) := Seek_start (advance f n) in
  match seekErr with
  | Some err => log_Error ("Error processing file:" ++ err)
  | None => ret tt
  end ;;;
  ret (f', match decodeErr with None => true | Some _ => false end).

(** [io.Copy(hasher, gz)]: with a nil [gz] the first [Read] dereferences
    it. *)
Definition io_Copy (hasher : bytes) (gz : option GzReader)
  : M (bytes * option error) :=
  match gz with
  | None => nil_dereference
  | Some r => ret (hasher ++ gz_out r, gz_err r)
  end.

(** [func hashGenerator(artifact string, fileObject []byte) string].
    The hasher is the list of the bytes written to it; [Write] on a
    [hash.Hash] never returns an error. *)
Definition hashGenerator (artifact : string) (fileObject : bytes)
  : M string :=
  let hasher : bytes := [] in
  hasher <-
    (if HasSuffix artifact ".gz" then
       log_Info "gzipped content detected" ;;;
       gz <- match gzip_NewReader L fileObject with
             | Err err => log_Error ("Error:" ++ err) ;;; ret None
             | Ok gz => ret (Some gz)
             end ;;
       '(hasher, copyErr) <- io_Copy hasher gz ;;
       match copyErr with
       | Some err => log_Error ("Error:" ++ err)
       | None => ret tt
       end ;;;
       ret hasher
     else
       ret (hasher ++ fileObject)) ;;
  let sha := Hex.EncodeToString (SHA256.Sum256 hasher) in
  ret sha.

(** The local variables of [Run] that are live after line 152. *)
Record Locals := mkLocals {
  url : string;
  signature : string;
  publicKey : string;
  artifactURL : string;
  sig : string;
  pub_key : string;
  readBody : bytes;
  generatedSha : string;
  pubkeyRingReader : Handle;
  sigkeyRingReader : Handle }.

(** Lines 102-152: configuration, format checks, download, hash, and
    opening of the two files. *)
Definition prepare (w : World) : M Locals :=
  let rekorServer := viper_GetString w "rekor_server" in
  let url := (rekorServer ++ "/api/v1/add")%string in
  let signature := viper_GetString w "signature" in
  let publicKey := viper_GetString w "public-key" in
  let artifactURL := viper_GetString w "artifact-url" in
  sig <- match pkg_FormatSignature w signature with
         | Err err => log_Fatal ("Signature validation failed: " ++ err)
         | Ok s => ret s
         end ;;
  pub_key <- match pkg_FormatPubKey w publicKey with
             | Err err => log_Fatal ("Public key validation failed: " ++ err)
             | Ok s => ret s
             end ;;
  log_Info "Download artifact.." ;;;
  emit (EvHttpGet artifactURL) ;;;
  let '(resp, err) := http_Get w artifactURL in
  match err with
  | Some err => log_Error err
  | None => ret tt
  end ;;;
  (* defer resp.Body.Close() *)
  resp <- match resp with
          | None => nil_dereference
          | Some r => ret r
          end ;;
  log_Info "Contents fetched.." ;;;
  let readBody := Body resp in
  match BodyErr resp with
  | Some err => log_Error ("Error reading response body: " ++ err)
  | None => ret tt
  end ;;;
  generatedSha <- hashGenerator artifactURL readBody ;;
  pubkeyRingReader <-
    match os_Open w publicKey with
    | Err err => log_Error ("Error opening publickey: " ++ err) ;;; ret None
    | Ok f => ret (Some f)
    end ;;
  sigkeyRingReader <-
    match os_Open w signature with
    | Err err => log_Error ("Error opening signature: " ++ err) ;;; ret None
    | Ok f => ret (Some f)
    end ;;
  ret (mkLocals url signature publicKey artifactURL sig pub_key
         readBody generatedSha pubkeyRingReader sigkeyRingReader).

(** Lines 154-165: the key ring, read through the armored or the binary
    reader.  Returns the handle as the reader left it. *)
Definition load_keyring (pubkeyRingReader : Handle)
  : M (Handle * EntityList L) :=
  '(f, armored) <- isArmorProtected pubkeyRingReader ;;
  if armored : bool then
    let '((keyRing, err), n) := openpgp_ReadArmoredKeyRing L (source_of f) in
    match err with
    | Some err => log_Error ("Error reading Armored Keyring: " ++ err)
    | None => ret tt
    end ;;;
    ret (advance f n, keyRing)
  else
    let '((keyRing, err), n) := openpgp_ReadKeyRing L (source_of f) in
    match err with
    | Some err => log_Error ("Error reading Keyring: " ++ err)
    | None => ret tt
    end ;;;
    ret (advance f n, keyRing).

(** Lines 169-179: the detached-signature check, armored or binary.
    Returns the handle as the check left it and the check's error. *)
Definition check_signature (keyRing : EntityList L) (readBody : bytes)
    (sigkeyRingReader : Handle) : M (Handle * option error) :=
  '(f, armored) <- isArmorProtected sigkeyRingReader ;;
  if armored : bool then
    let '(err, n) :=
      openpgp_CheckArmoredDetachedSignature L keyRing readBody (source_of f) in
    match err with
    | Some err =>
        log_Error ("Error reading Armor Detatched Signature: " ++ err)
    | None => ret tt
    end ;;;
    ret (advance f n, err)
  else
    let '(err, n) :=
      openpgp_CheckDetachedSignature L keyRing readBody (source_of f) in
    match err with
    | Some err => log_Error ("Error reading Detatched Signature: " ++ err)
    | None => ret tt
    end ;;;
    ret (advance f n, err).

(** Lines 167-184. *)
Definition verify (keyRing : EntityList L) (readBody : bytes)
    (sigkeyRingReader : Handle) : M Handle :=
  '(f, err) <- check_signature keyRing readBody sigkeyRingReader ;;
  match err with
  | Some err =>
      log_Error ("Signature Verification failed: " ++ err) ;;;
      os_Exit 1
  | None => ret tt
  end ;;;
  log_Info "Signature validation passed" ;;;
  ret f.

(** [json.Marshal(v)] with its [err != nil] branch. *)
Definition marshal (prefix : string) (e : Entry) : M bytes :=
  emit (EvMarshal e) ;;;
  match json_Marshal L e with
  | Err err => log_Fatal (prefix ++ err)
  | Ok b => ret b
  end.

(** Lines 186-221: the choice between the two entry types.  The second
    operand of [||] is evaluated only when the first is false. *)
Definition build (w : World) (l : Locals)
    (sigkeyRingReader pubkeyRingReader : Handle) : M bytes :=
  '(_, sigArmored) <- isArmorProtected sigkeyRingReader ;;
  armored <- (if sigArmored : bool then ret true
              else '(_, b) <- isArmorProtected pubkeyRingReader ;; ret b) ;;
  if armored : bool then
    let rekorArmorJSON :=
      RekorArmorEntry (generatedSha l) (artifactURL l) (sig l) (pub_key l) in
    marshal "" rekorArmorJSON
  else
    pubKey <- match ioutil_ReadFile w (publicKey l) with
              | Err err => log_Fatal ("Error Loading: " ++ err)
              | Ok b => ret b
              end ;;
    sigKey <- match ioutil_ReadFile w (signature l) with
              | Err err => log_Fatal ("Error Loading: " ++ err)
              | Ok b => ret b
              end ;;
    let rekorJSON :=
      RekorEntry (generatedSha l) (artifactURL l) sigKey pubKey in
    marshal "JSON Failed to Marshall: " rekorJSON.

(** Lines 223-255: one request under a context that expires after
    [180*time.Second]. *)
Definition submit (w : World) (url : string) (marshalledRekorEntry : bytes)
  : M unit :=
  log_Info "Uploading manifest to Rekor." ;;;
  let timeout := 180 * time_Second in
  match http_NewRequest L "POST" url with
  | Some err => log_Fatal err
  | None => ret tt
  end ;;;
  emit (EvHttpPost url marshalledRekorEntry timeout) ;;;
  response <- match client_Do w url marshalledRekorEntry timeout with
              | Err err => log_Fatal err
              | Ok r => ret r
              end ;;
  content <- match BodyErr response with
             | Some err => log_Fatal err
             | None => ret (Body response)
             end ;;
  leafresp <- match json_Unmarshal L content with
              | Err err => log_Fatal err
              | Ok r => ret r
              end ;;
  log_Info ("Status: {" ++ Status_Code leafresp ++ "}").

(** [uploadCmd.Run] *)
Definition Run (w : World) : M unit :=
  l <- prepare w ;;
  '(pubH, keyRing) <- load_keyring (pubkeyRingReader l) ;;
  sigH <- verify keyRing (readBody l) (sigkeyRingReader l) ;;
  marshalledRekorEntry <- build w l sigH pubH ;;
  submit w (url l) marshalledRekorEntry.

End Upload.

(* ================================================================= *)
(** ** bytes helpers used by the armor library *)

Definition byte_is (b : byte) (z : Z) : bool := Z_of_byte b =? z.

Fixpoint bytes_eqb (a b : bytes) : bool :=
  match a, b with
  | [], [] => true
  | x :: a', y :: b' => Byte.eqb x y && bytes_eqb a' b'
  | _, _ => false
  end.

(** [bytes.HasPrefix(s, prefix)] *)
Fixpoint bytes_HasPrefix (s prefix : bytes) : bool :=
  match prefix, s with
  | [], _ => true
  | p :: prefix', c :: s' => Byte.eqb c p && bytes_HasPrefix s' prefix'
  | _ :: _, [] => false
  end.

(** [bytes.Index(s, sep) != -1] *)
Fixpoint bytes_Contains (s sep : bytes) : bool :=
  bytes_HasPrefix s sep ||
  match s with
  | [] => false
  | _ :: s' => bytes_Contains s' sep
  end.

(** [bytes.IndexByte(s, '\n')] *)
Fixpoint index_newline (s : bytes) : option nat :=
  match s with
  | [] => None
  | c :: s' =>
      if byte_is c 10 then Some O
      else match index_newline s' with
           | Some i => Some (S i)
           | None => None
           end
  end.

(** The length of the white-space rune at the head of [s], 0 when there
    is none: the six ASCII spaces, and the UTF-8 encodings of U+0085,
    U+00A0, U+1680, U+2000..U+200A, U+2028, U+2029, U+202F, U+205F and
    U+3000 ([unicode.IsSpace]). *)
Definition space_rune (s : bytes) : nat :=
  match map Z_of_byte (firstn 3 s) with
  | c :: t =>
      if (c =? 9) || (c =? 10) || (c =? 11) || (c =? 12) || (c =? 13)
         || (c =? 32) then 1%nat
      else match t with
           | d :: t' =>
               if (c =? 0xc2) && ((d =? 0x85) || (d =? 0xa0)) then 2%nat
               else match t' with
                    | e :: _ =>
                        if (c =? 0xe1) && (d =? 0x9a) && (e =? 0x80)
                        then 3%nat
                        else if (c =? 0xe2) && (d =? 0x80) &&
                                (((0x80 <=? e) && (e <=? 0x8a)) ||
                                 (e =? 0xa8) || (e =? 0xa9) || (e =? 0xaf))
                        then 3%nat
                        else if (c =? 0xe2) && (d =? 0x81) && (e =? 0x9f)
                        then 3%nat
                        else if (c =? 0xe3) && (d =? 0x80) && (e =? 0x80)
                        then 3%nat
                        else 0%nat
                    | [] => 0%nat
                    end
           | [] => 0%nat
           end
  | [] => 0%nat
  end.

(** The same, for the rune at the end of [s], given [rev s]. *)
Definition space_rune_last (r : bytes) : nat :=
  match r with
  | [] => 0%nat
  | c :: _ =>
      if space_rune [c] =? 1 then 1
      else match r with
           | d :: c :: _ =>
               if space_rune [c; d] =? 2 then 2
               else match r with
                    | e :: d :: c :: _ =>
                        if space_rune [c; d; e] =? 3 then 3 else 0
                    | _ => 0
                    end
           | _ => 0
           end
  end%nat.

Fixpoint trim_left (fuel : nat) (s : bytes) : bytes :=
  match fuel with
  | O => s
  | S fuel' =>
      match space_rune s with
      | O => s
      | n => trim_left fuel' (skipn n s)
      end
  end.

Fixpoint trim_left_rev (fuel : nat) (r : bytes) : bytes :=
  match fuel with
  | O => r
  | S fuel' =>
      match space_rune_last r with
      | O => r
      | n => trim_left_rev fuel' (skipn n r)
      end
  end.

(** [bytes.TrimSpace(s)]: white space, as defined by Unicode, sliced off
    both ends. *)
Definition bytes_TrimSpace (s : bytes) : bytes :=
  let l := trim_left (List.length s) s in
  rev (trim_left_rev (List.length l) (rev l)).

(* ================================================================= *)
(** ** bufio, with the 100-byte buffer of [armor.Decode] *)

Module Bufio.

Definition size : nat := 100.

(** The unread part of the buffer, what the underlying reader still
    holds, and how much was taken from it. *)
Record Reader := mkReader {
  buf : bytes;
  under : bytes;
  taken : nat }.

Definition NewReaderSize (src : bytes) : Reader := mkReader [] src 0.

(** The bytes the reader will still deliver. *)
Definition pending (r : Reader) : bytes := buf r ++ under r.

(** [fill]: one [Read] into the free space of the buffer.  A file gives
    as many bytes as are asked for while it has them. *)
Definition fill (r : Reader) : Reader :=
  let k := (size - List.length (buf r))%nat in
  mkReader (buf r ++ firstn k (under r)) (skipn k (under r))
           (taken r + List.length (firstn k (under r))).

Inductive SliceErr := NoErr | ErrBufferFull | EOF.

(** The search of [ReadSlice] in the buffer as it is. *)
Definition search (r : Reader) : option (bytes * SliceErr * Reader) :=
  match index_newline (buf r) with
  | Some i =>
      Some (firstn (S i) (buf r), NoErr,
            mkReader (skipn (S i) (buf r)) (under r) (taken r))
  | None =>
      if (size <=? List.length (buf r))%nat
      then Some (buf r, ErrBufferFull, mkReader [] (under r) (taken r))
      else None
  end.

(** [ReadSlice('\n')].  After one [fill] the buffer is full or the file
    is at its end; when it is not full and holds no newline, the next
    [fill] reads nothing, sets [io.EOF], and the buffer is returned. *)
Definition ReadSlice (r : Reader) : bytes * SliceErr * Reader :=
  match search r with
  | Some res => res
  | None =>
      let r1 := fill r in
      match search r1 with
      | Some res => res
      | None => (buf r1, EOF, mkReader [] (under r1) (taken r1))
      end
  end.

Inductive LineResult :=
| Line (line : bytes) (isPrefix : bool)
| LineEOF.

(** [ReadLine] *)
Definition ReadLine (r : Reader) : LineResult * Reader :=
  let '(line, err, r') := ReadSlice r in
  match err with
  | ErrBufferFull =>
      match rev line with
      | c :: before =>
          if byte_is c 13
          then (Line (rev before) true,
                mkReader (c :: buf r') (under r') (taken r'))
          else (Line line true, r')
      | [] => (Line line true, r')
      end
  | _ =>
      match rev line with
      | [] => match err with
              | EOF => (LineEOF, r')
              | _ => (Line [] false, r')
              end
      | c :: before =>
          if byte_is c 10 then
            match before with
            | d :: before' =>
                if byte_is d 13 then (Line (rev before') false, r')
                else (Line (rev before) false, r')
            | [] => (Line [] false, r')
            end
          else (Line line false, r')
      end
  end.

End Bufio.

(* ================================================================= *)
(** ** golang.org/x/crypto/openpgp/armor: the framing *)

Module Armor.

Definition armorStart : bytes := bytes_of_string "-----BEGIN ".
Definition armorEnd : bytes := bytes_of_string "-----END ".
Definition armorEndOfLine : bytes := bytes_of_string "-----".
Definition newline : bytes := [x0a].

Definition io_EOF : error := "EOF".

(** Where [Decode] is: skipping lines before a block, or reading the
    headers of one.  The flag says that the line to come continues a
    line too long for the buffer. *)
Inductive Mode :=
| SkipGarbage (ignoreThis : bool)
| ReadHeaders (isContinuation : bool).

(** The two loops of [Decode] and the [goto TryNextBlock] between them.
    [Some None] is a block found, [Some (Some err)] the error of
    [ReadLine]; [None] is the fuel used up. *)
Fixpoint scan (fuel : nat) (m : Mode) (r : Bufio.Reader)
  : option (option error * Bufio.Reader) :=
  match fuel with
  | O => None
  | S fuel' =>
      match Bufio.ReadLine r with
      | (Bufio.LineEOF, r') => Some (Some io_EOF, r')
      | (Bufio.Line line isPrefix, r') =>
          match m with
          | SkipGarbage ignoreThis =>
              if isPrefix || ignoreThis
              then scan fuel' (SkipGarbage isPrefix) r'
              else
                let line := bytes_TrimSpace line in
                if (List.length armorStart + List.length armorEndOfLine
                      <? List.length line)%nat
                   && bytes_HasPrefix line armorStart
                then scan fuel' (ReadHeaders false) r'
                else scan fuel' (SkipGarbage isPrefix) r'
          | ReadHeaders isContinuation =>
              if isContinuation
              then scan fuel' (ReadHeaders isPrefix) r'
              else
                let line := bytes_TrimSpace line in
                match line with
                | [] => Some (None, r')
                | _ :: _ =>
                    if bytes_Contains line (bytes_of_string ": ")
                    then scan fuel' (ReadHeaders isPrefix) r'
                    else scan fuel' (SkipGarbage false) r'
                end
          end
      end
  end.

(** [armor.Decode(in)], as far as its error and the bytes it takes from
    [in] go.  Every line read takes at least one byte, so the length of
    the input and one more is fuel enough. *)
Definition Decode (src : Source) : option error * nat :=
  match src with
  | Broken e => (Some e, O)
  | Bytes rest =>
      match scan (S (List.length rest)) (SkipGarbage false)
                 (Bufio.NewReaderSize rest) with
      | Some (err, r) => (err, Bufio.taken r)
      | None => (Some io_EOF, List.length rest)
      end
  end.

(** *** encoding/base64, [StdEncoding] *)

Definition encodeStd : string :=
  "ABCDEFGHIJKLMNOPQRSTUVWXYZabcdefghijklmnopqrstuvwxyz0123456789+/".

Definition b64char (n : Z) : byte :=
  match String.get (Z.to_nat n) encodeStd with
  | Some c => byte_of_ascii c
  | None => x3d
  end.

Fixpoint base64 (src : bytes) : bytes :=
  match src with
  | a :: b :: c :: rest =>
      let v := Z.lor (Z.lor (Z.shiftl (Z_of_byte a) 16)
                            (Z.shiftl (Z_of_byte b) 8)) (Z_of_byte c) in
      b64char (Z.land (Z.shiftr v 18) 63) ::
      b64char (Z.land (Z.shiftr v 12) 63) ::
      b64char (Z.land (Z.shiftr v 6) 63) ::
      b64char (Z.land v 63) :: base64 rest
  | [a; b] =>
      let v := Z.lor (Z.shiftl (Z_of_byte a) 16)
                     (Z.shiftl (Z_of_byte b) 8) in
      [ b64char (Z.land (Z.shiftr v 18) 63);
        b64char (Z.land (Z.shiftr v 12) 63);
        b64char (Z.land (Z.shiftr v 6) 63); x3d ]
  | [a] =>
      let v := Z.shiftl (Z_of_byte a) 16 in
      [ b64char (Z.land (Z.shiftr v 18) 63);
        b64char (Z.land (Z.shiftr v 12) 63); x3d; x3d ]
  | [] => []
  end.

(** *** The checksum of RFC 4880, section 6.1 *)

Definition crc24Init : Z := 0xb704ce.
Definition crc24Poly : Z := 0x1864cfb.

Fixpoint crc24_bits (n : nat) (crc : Z) : Z :=
  match n with
  | O => crc
  | S n' =>
      let crc := Z.shiftl crc 1 in
      crc24_bits n'
        (if Z.land crc 0x1000000 =? 0 then crc else Z.lxor crc crc24Poly)
  end.

Definition crc24 (crc : Z) (d : bytes) : Z :=
  fold_left
    (fun crc b => crc24_bits 8 (Z.lxor crc (Z.shiftl (Z_of_byte b) 16)))
    d crc.

(** The [lineBreaker]: the text in lines of [lineLength] bytes, a
    newline between two lines. *)
Fixpoint break_lines (fuel : nat) (lineLength : nat) (s : bytes) : bytes :=
  match fuel with
  | O => s
  | S fuel' =>
      if (List.length s <=? lineLength)%nat then s
      else firstn lineLength s ++ newline
             ++ break_lines fuel' lineLength (skipn lineLength s)
  end.

(** What [armor.Encode(out, blockType, nil)], a [Write] of [payload]
    and [Close] leave in [out]. *)
Definition Encode (blockType : string) (payload : bytes) : bytes :=
  let c := crc24 crc24Init payload in
  let checksumBytes :=
    [ byte_of_Z (Z.shiftr c 16); byte_of_Z (Z.shiftr c 8); byte_of_Z c ] in
  let body := base64 payload in
  armorStart ++ bytes_of_string blockType ++ armorEndOfLine ++ newline
    ++ newline
    ++ break_lines (List.length body) 64 body
    ++ bytes_of_string (String "010" "=") ++ base64 checksumBytes
    ++ newline ++ armorEnd ++ bytes_of_string blockType ++ armorEndOfLine.

End Armor.

(* ================================================================= *)
(** ** A reference library

    The theorems below hold for every [Lib].  To run the command on
    concrete inputs a [Lib] is needed; this one reads gzip members whose
    deflate blocks are all stored ones, frames armor as the armor library
    does, and stands in for OpenPGP and JSON with the simplest functions
    of the right shape. *)

Module Gzip.

Definition io_EOF : error := "EOF".
Definition io_ErrUnexpectedEOF : error := "unexpected EOF".
Definition ErrHeader : error := "gzip: invalid header".
Definition ErrChecksum : error := "gzip: invalid checksum".
Definition CorruptInputError (off : nat) : error :=
  ("flate: corrupt input before offset "
     ++ NilEmpty.string_of_uint (Nat.to_uint off))%string.

(** [crc32.ChecksumIEEE] *)
Fixpoint crc32_bits (n : nat) (c : Z) : Z :=
  match n with
  | O => c
  | S n' =>
      crc32_bits n'
        (if Z.testbit c 0 then Z.lxor (Z.shiftr c 1) 0xedb88320
         else Z.shiftr c 1)
  end.

Definition crc32 (d : bytes) : Z :=
  Z.lxor
    (fold_left (fun c b => crc32_bits 8 (Z.lxor c (Z_of_byte b)))
               d 0xffffffff)
    0xffffffff.

Definition le16 (a b : byte) : Z :=
  Z.lor (Z_of_byte a) (Z.shiftl (Z_of_byte b) 8).

Definition le32 (a b c d : byte) : Z :=
  Z.lor (le16 a b) (Z.shiftl (le16 c d) 16).

(** The deflate stream of one member, stored blocks only.  [off] counts
    the bytes read so far; the result is the output, the error that ends
    it ([None] for the final block reached) and the input left.  [None]
    as a whole: a Huffman block, which is outside this model. *)
Fixpoint inflate_stored (fuel : nat) (off : nat) (s : bytes) (out : bytes)
  : option (bytes * option error * bytes) :=
  match fuel with
  | O => None
  | S fuel' =>
      match s with
      | [] => Some (out, Some io_ErrUnexpectedEOF, [])
      | hb :: s1 =>
          let final := Z.testbit (Z_of_byte hb) 0 in
          let typ := Z.land (Z.shiftr (Z_of_byte hb) 1) 3 in
          if typ =? 0 then
            match s1 with
            | a :: b :: c :: d :: s2 =>
                let n := le16 a b in
                let nn := le16 c d in
                if negb (nn =? Z.lxor n 0xffff)
                then Some (out, Some (CorruptInputError (off + 5)), s2)
                else
                  let chunk := firstn (Z.to_nat n) s2 in
                  let s3 := skipn (Z.to_nat n) s2 in
                  if (List.length chunk <? Z.to_nat n)%nat
                  then Some (out ++ chunk, Some io_ErrUnexpectedEOF, s3)
                  else if final then Some (out ++ chunk, None, s3)
                  else inflate_stored fuel'
                         (off + 5 + Z.to_nat n) s3 (out ++ chunk)
            | _ => Some (out, Some io_ErrUnexpectedEOF, [])
            end
          else if typ =? 3
          then Some (out, Some (CorruptInputError (off + 1)), s1)
          else None
      end
  end.

(** The ten bytes of a member header; only headers without optional
    fields ([FLG = 0]) are in this model. *)
Definition readHeader (s : bytes) : option (Result bytes) :=
  match s with
  | [] => Some (Err io_EOF)
  | id1 :: id2 :: cm :: flg :: _ :: _ :: _ :: _ :: _ :: _ :: rest =>
      if negb (byte_is id1 0x1f && byte_is id2 0x8b && byte_is cm 8)
      then Some (Err ErrHeader)
      else if byte_is flg 0 then Some (Ok rest) else None
  | _ => Some (Err io_ErrUnexpectedEOF)
  end.

(** The members one after the other ([multistream]), from the deflate
    stream of the first on. *)
Fixpoint members (fuel : nat) (s : bytes) (out : bytes)
  : option GzReader :=
  match fuel with
  | O => None
  | S fuel' =>
      match inflate_stored (S (List.length s)) 0 s [] with
      | None => None
      | Some (o, Some e, _) => Some (mkGz (out ++ o) (Some e))
      | Some (o, None, rest) =>
          match rest with
          | a :: b :: c :: d :: e :: f :: g :: h :: next =>
              if negb ((le32 a b c d =? crc32 o) &&
                       (le32 e f g h =?
                          Z.land (Z.of_nat (List.length o)) 0xffffffff))
              then Some (mkGz (out ++ o) (Some ErrChecksum))
              else
                match readHeader next with
                | None => None
                | Some (Err e) =>
                    Some (mkGz (out ++ o)
                            (if String.eqb e io_EOF then None else Some e))
                | Some (Ok s') => members fuel' s' (out ++ o)
                end
          | _ => Some (mkGz (out ++ o) (Some io_ErrUnexpectedEOF))
          end
      end
  end.

Definition not_modelled : error := "not modelled".

(** [gzip.NewReader(bytes.NewReader(z))] and the reads that follow. *)
Definition NewReader (z : bytes) : Result GzReader :=
  match readHeader z with
  | None => Err not_modelled
  | Some (Err e) => Err e
  | Some (Ok s) =>
      match members (S (List.length s)) s [] with
      | None => Err not_modelled
      | Some r => Ok r
      end
  end.

(** A writer that stores: one member, the data in stored blocks of at
    most 65535 bytes. *)
Definition le16_bytes (n : Z) : bytes :=
  [ byte_of_Z n; byte_of_Z (Z.shiftr n 8) ].

Definition le32_bytes (n : Z) : bytes :=
  le16_bytes n ++ le16_bytes (Z.shiftr n 16).

Definition maxStoreBlockSize : nat := Z.to_nat 65535.

Fixpoint store_blocks (fuel : nat) (d : bytes) : bytes :=
  match fuel with
  | O => []
  | S fuel' =>
      let chunk := firstn maxStoreBlockSize d in
      let rest := skipn maxStoreBlockSize d in
      let n := Z.of_nat (List.length chunk) in
      match rest with
      | [] => x01 :: le16_bytes n ++ le16_bytes (Z.lxor n 0xffff) ++ chunk
      | _ :: _ =>
          x00 :: le16_bytes n ++ le16_bytes (Z.lxor n 0xffff) ++ chunk
            ++ store_blocks fuel' rest
      end
  end.

Definition Store (d : bytes) : bytes :=
  [x1f; x8b; x08; x00; x00; x00; x00; x00; x00; xff]
    ++ store_blocks (S (List.length d)) d
    ++ le32_bytes (crc32 d)
    ++ le32_bytes (Z.land (Z.of_nat (List.length d)) 0xffffffff).

End Gzip.

(** A stand-in for OpenPGP: a key ring is the list of the key blobs read,
    and the signature of [data] under the key [k] is
    [SHA256(k ++ data)], armored or not. *)
Module ToyPGP.

Definition EntityList := list bytes.

Definition ErrUnknownIssuer : error :=
  "openpgp: signature made by unknown entity".
Definition ErrNoKeys : error := "openpgp: invalid argument: no keys found".
Definition ErrNoArmor : error := "openpgp: invalid argument: no armored data found".

Definition sign (k data : bytes) : bytes := SHA256.Sum256 (k ++ data).

Definition ReadKeyRing (src : Source) : (EntityList * option error) * nat :=
  match src with
  | Broken e => (([], Some e), O)
  | Bytes [] => (([], Some ErrNoKeys), O)
  | Bytes k => (([k], None), List.length k)
  end.

Definition ReadArmoredKeyRing (src : Source)
  : (EntityList * option error) * nat :=
  match fst (Armor.Decode src) with
  | Some _ =>
      (([], Some ErrNoArmor),
       match src with Bytes k => List.length k | Broken _ => O end)
  | None => ReadKeyRing src
  end.

Definition CheckDetachedSignature (ring : EntityList) (signed : bytes)
    (src : Source) : option error * nat :=
  match src with
  | Broken e => (Some e, O)
  | Bytes s =>
      (if existsb (fun k => bytes_eqb s (sign k signed)) ring
       then None else Some ErrUnknownIssuer,
       List.length s)
  end.

Definition CheckArmoredDetachedSignature (ring : EntityList)
    (signed : bytes) (src : Source) : option error * nat :=
  match src with
  | Broken e => (Some e, O)
  | Bytes s =>
      (if existsb
            (fun k => bytes_eqb s
                        (Armor.Encode "PGP SIGNATURE" (sign k signed)))
            ring
       then None else Some ErrUnknownIssuer,
       List.length s)
  end.

End ToyPGP.

(** A stand-in for [encoding/json]: the fields in the order of the struct,
    [omitempty] honoured, byte slices in base64, quotes and backslashes
    escaped. *)
Module ToyJSON.

Fixpoint escape (s : bytes) : bytes :=
  match s with
  | [] => []
  | c :: s' =>
      if byte_is c 34 || byte_is c 92 then x5c :: c :: escape s'
      else c :: escape s'
  end.

Definition quote (s : bytes) : bytes := x22 :: escape s ++ [x22].

Definition field (name : string) (v : bytes) : bytes :=
  quote (bytes_of_string name) ++ x3a :: v.

Definition omitempty (name : string) (v : string) : list bytes :=
  match v with
  | EmptyString => []
  | _ => [field name (quote (bytes_of_string v))]
  end.

Fixpoint join (fields : list bytes) : bytes :=
  match fields with
  | [] => []
  | [f] => f
  | f :: rest => f ++ x2c :: join rest
  end.

Definition Marshal (e : Entry) : Result bytes :=
  Ok (x7b ::
      join
        match e with
        | RekorEntry sha u sg pk =>
            omitempty "SHA" sha ++ omitempty "URL" u ++
            [ field "Signature" (quote (Armor.base64 sg));
              field "PublicKey" (quote (Armor.base64 pk)) ]
        | RekorArmorEntry sha u sg pk =>
            omitempty "SHA" sha ++ omitempty "URL" u ++
            [ field "Signature" (quote (bytes_of_string sg));
              field "PublicKey" (quote (bytes_of_string pk)) ]
        end
      ++ [x7d]).

(** The whole body is taken for the [file_recieved] code. *)
Definition Unmarshal (b : bytes) : Result getLeafResponse :=
  match b with
  | [] => Err "unexpected end of JSON input"
  | _ => Ok (mkLeafResp (string_of_list_byte b) [])
  end.

End ToyJSON.

Definition RefLib : Lib :=
  mkLib ToyPGP.EntityList
        Gzip.NewReader
        Armor.Decode
        ToyPGP.ReadKeyRing
        ToyPGP.ReadArmoredKeyRing
        ToyPGP.CheckDetachedSignature
        ToyPGP.CheckArmoredDetachedSignature
        ToyJSON.Marshal
        ToyJSON.Unmarshal
        (fun _ _ => None).

(* ================================================================= *)
(** ** Encoding classes and concrete worlds *)

Inductive EncodingClass := Armored | Binary.

(** The class a source gets when it is probed right after [os.Open]. *)
Definition classify (L : Lib) (content : bytes) : EncodingClass :=
  match snd (isArmorProtected L (Some (mkFile content 0 true))) with
  | Ret (_, true) => Armored
  | _ => Binary
  end.

(** What the probe answers: whether [armor.Decode], reading from the
    offset the handle is at, returns no error. *)
Definition decodes (L : Lib) (f : Handle) : bool :=
  match fst (armor_Decode L (source_of f)) with
  | None => true
  | Some _ => false
  end.

(** [x] holds no line that could open an armor block. *)
Definition no_armor_start (x : bytes) : Prop :=
  bytes_Contains x Armor.armorStart = false.

Definition is_armor_entry (e : Entry) : bool :=
  match e with RekorArmorEntry _ _ _ _ => true | RekorEntry _ _ _ _ => false end.

(** The entry [build] serializes: the armored one with the two formatted
    texts, or the raw one with the bytes of the two files. *)
Definition entry_of (l : Locals) (armored : bool) (sigKey pubKey : bytes)
  : Entry :=
  if armored
  then RekorArmorEntry (generatedSha l) (artifactURL l) (sig l) (pub_key l)
  else RekorEntry (generatedSha l) (artifactURL l) sigKey pubKey.

Module Test.

Definition hello : bytes := bytes_of_string "hello" ++ [x0a].
Definition key : bytes := bytes_of_string "test-key-0001".

Definition sig_path : string := "artifact.sig".
Definition key_path : string := "signer.pub".
Definition artifact : string := "http://example.com/artifact".
Definition server : string := "http://rekor.example".

Definition config (k : string) : string :=
  if String.eqb k "rekor_server" then server
  else if String.eqb k "signature" then sig_path
  else if String.eqb k "public-key" then key_path
  else if String.eqb k "artifact-url" then artifact
  else "".

(** A file system: path, content, and whether the file can seek. *)
Definition FS := list (string * (bytes * bool)).

Fixpoint lookup (fs : FS) (path : string) : option (bytes * bool) :=
  match fs with
  | [] => None
  | (p, f) :: fs' => if String.eqb p path then Some f else lookup fs' path
  end.

Definition ENOENT : error := "no such file or directory".

Definition world (fs : FS) (get : option Response * option error)
    (do : Result Response) : World :=
  mkWorld config
    (fun p => match lookup fs p with
              | Some (b, _) => Ok (string_of_list_byte b)
              | None => Err ENOENT
              end)
    (fun p => match lookup fs p with
              | Some (b, _) => Ok (string_of_list_byte b)
              | None => Err ENOENT
              end)
    (fun _ => get)
    (fun p => match lookup fs p with
              | Some (b, s) => Ok (mkFile b 0 s)
              | None => Err ENOENT
              end)
    (fun p => match lookup fs p with
              | Some (b, _) => Ok b
              | None => Err ENOENT
              end)
    (fun _ _ _ => do).

Definition accepted : Result Response :=
  Ok (mkResp 200 (bytes_of_string "ok") None).

Definition good_sig : bytes := ToyPGP.sign key hello.

(** The first byte of the signature with its lowest bit flipped. *)
Definition flipped_sig : bytes :=
  match good_sig with
  | b :: rest => byte_of_Z (Z.lxor (Z_of_byte b) 1) :: rest
  | [] => []
  end.

Definition armored_sig : bytes := Armor.Encode "PGP SIGNATURE" good_sig.

(** Scenario A: binary signature, binary key, artifact served. *)
Definition world_A : World :=
  world [(sig_path, (good_sig, true)); (key_path, (key, true))]
        (Some (mkResp 200 hello None), None) accepted.

(** Scenario B: the signature byte-flipped. *)
Definition world_B : World :=
  world [(sig_path, (flipped_sig, true)); (key_path, (key, true))]
        (Some (mkResp 200 hello None), None) accepted.

(** Scenario C: the artifact server answers 500, with a body. *)
Definition error_page : bytes := bytes_of_string "Internal Server Error".

Definition world_C : World :=
  world [(sig_path, (good_sig, true)); (key_path, (key, true))]
        (Some (mkResp 500 error_page None), None) accepted.



(** An armored signature with a binary key. *)
Definition world_armored : World :=
  world [(sig_path, (armored_sig, true)); (key_path, (key, true))]
        (Some (mkResp 200 hello None), None) accepted.

(** The transport fails: no response at all. *)
Definition world_unreachable : World :=
  world [(sig_path, (good_sig, true)); (key_path, (key, true))]
        (None, Some "dial tcp: connection refused") accepted.

(** A gzip member cut in the middle of its stored block. *)
Definition truncated_gz : bytes := firstn 18 (Gzip.Store hello).


End Test.

(* ================================================================= *)
(** * Theorems *)

(** [l ++ d <> []] for a [d] that is visibly not empty. *)
Ltac nonnil :=
  let E := fresh "E" in
  intros E; apply app_eq_nil in E; destruct E as [_ E]; discriminate E.

(** An equation between two ways of bracketing the same appends. *)
Ltac app_eq :=
  cbn [rev app]; repeat rewrite <- app_assoc; cbn [app]; reflexivity.

(** ** Test vectors *)

Example sha256_abc :
  Hex.EncodeToString (SHA256.Sum256 (bytes_of_string "abc")) =
  "ba7816bf8f01cfea414140de5dae2223b00361a396177a9cb410ff61f20015ad".
Proof. vm_compute. reflexivity. Qed.

Example sha256_empty :
  Hex.EncodeToString (SHA256.Sum256 []) =
  "e3b0c44298fc1c149afbf4c8996fb92427ae41e4649b934ca495991b7852b855".
Proof. vm_compute. reflexivity. Qed.

Example sha256_two_blocks :
  Hex.EncodeToString
    (SHA256.Sum256
       (bytes_of_string
          "abcdbcdecdefdefgefghfghighijhijkijkljklmklmnlmnomnopnopq")) =
  "248d6a61d20638b8e5c026930c3e6039a33ce45964ff2167f6ecedd419db06c1".
Proof. vm_compute. reflexivity. Qed.

Example crc24_check :
  Armor.crc24 Armor.crc24Init (bytes_of_string "123456789") = 0x21cf02.
Proof. vm_compute. reflexivity. Qed.

Example crc32_check :
  Gzip.crc32 (bytes_of_string "123456789") = 0xcbf43926.
Proof. vm_compute. reflexivity. Qed.

(** ** The effect monad *)

Lemma bind_Ret {A B} (t : list Event) (a : A) (k : A -> M B) :
  bind (t, Ret a) k = (t ++ fst (k a), snd (k a)).
Proof. unfold bind. destruct (k a); reflexivity. Qed.

Lemma bind_ret_l {A B} (a : A) (k : A -> M B) : bind (ret a) k = k a.
Proof. unfold ret, bind. destruct (k a); reflexivity. Qed.

Lemma bind_Exit {A B} (t : list Event) (c : Z) (k : A -> M B) :
  bind (t, Exit c) k = (t, Exit c).
Proof. reflexivity. Qed.

Lemma bind_Panic {A B} (t : list Event) (s : string) (k : A -> M B) :
  bind (t, Panic s) k = (t, Panic s).
Proof. reflexivity. Qed.

(** The trace of [bind m k] is the trace of [m], followed by the trace of
    the continuation when [m] returns. *)
Lemma bind_trace {A B} (m : M A) (k : A -> M B) :
  fst (bind m k) =
  fst m ++ match snd m with Ret a => fst (k a) | _ => [] end.
Proof.
  destruct m as [t [a | c | s]]; simpl.
  - destruct (k a); reflexivity.
  - now rewrite app_nil_r.
  - now rewrite app_nil_r.
Qed.

(** A property of every event carries over [bind]. *)
Lemma bind_forallb {A B} (p : Event -> bool) (m : M A) (k : A -> M B) :
  forallb p (fst m) = true ->
  (forall a, snd m = Ret a -> forallb p (fst (k a)) = true) ->
  forallb p (fst (bind m k)) = true.
Proof.
  intros Hm Hk. rewrite bind_trace, forallb_app, Hm. simpl.
  destruct (snd m) eqn:E; auto.
Qed.

(** ** crypto/sha256 and encoding/hex: the shape of a digest *)

Lemma Sum256_length (msg : bytes) : List.length (SHA256.Sum256 msg) = 32%nat.
Proof.
  unfold SHA256.Sum256.
  generalize (SHA256.blocks (S (List.length (SHA256.pad msg) / 64))
                SHA256.init (SHA256.pad msg)).
  intros s. reflexivity.
Qed.

Lemma EncodeToString_length (src : bytes) :
  String.length (Hex.EncodeToString src) = (2 * List.length src)%nat.
Proof.
  induction src as [| v rest IH]; simpl; [reflexivity |].
  rewrite IH. lia.
Qed.

Lemma hex_digits_of_byte (v : byte) :
  Hex.is_lower_hex (Hex.digit (Z.shiftr (Z_of_byte v) 4)) = true /\
  Hex.is_lower_hex (Hex.digit (Z.land (Z_of_byte v) 15)) = true.
Proof. destruct v; split; vm_compute; reflexivity. Qed.

Lemma EncodeToString_lower_hex (src : bytes) :
  forallb Hex.is_lower_hex
    (list_ascii_of_string (Hex.EncodeToString src)) = true.
Proof.
  induction src as [| v rest IH]; [reflexivity |].
  destruct (hex_digits_of_byte v) as [Hhi Hlo].
  cbn [Hex.EncodeToString list_ascii_of_string forallb].
  now rewrite Hhi, Hlo, IH.
Qed.

(** ** hashGenerator, branch by branch *)

Section HashGenerator.

Variable L : Lib.

Lemma hashGenerator_plain (artifact : string) (fileObject : bytes) :
  HasSuffix artifact ".gz" = false ->
  hashGenerator L artifact fileObject =
  ([], Ret (Hex.EncodeToString (SHA256.Sum256 fileObject))).
Proof.
  intros H. unfold hashGenerator. rewrite H. reflexivity.
Qed.

Lemma hashGenerator_gz_header (artifact : string) (fileObject : bytes)
    (err : error) :
  HasSuffix artifact ".gz" = true ->
  gzip_NewReader L fileObject = Err err ->
  hashGenerator L artifact fileObject =
  ([EvLog Info "gzipped content detected"; EvLog Error ("Error:" ++ err)],
   Panic "invalid memory address or nil pointer dereference").
Proof.
  intros H E. unfold hashGenerator. rewrite H, E. reflexivity.
Qed.

Lemma hashGenerator_gz_stream (artifact : string) (fileObject : bytes)
    (gz : GzReader) :
  HasSuffix artifact ".gz" = true ->
  gzip_NewReader L fileObject = Ok gz ->
  hashGenerator L artifact fileObject =
  (EvLog Info "gzipped content detected" ::
     match gz_err gz with
     | Some err => [EvLog Error ("Error:" ++ err)]
     | None => []
     end,
   Ret (Hex.EncodeToString (SHA256.Sum256 (gz_out gz)))).
Proof.
  intros H E. unfold hashGenerator. rewrite H, E.
  destruct gz as [out [e |]]; reflexivity.
Qed.

(** Whatever branch is taken, a returned digest is the hex form of a
    SHA-256 sum. *)
Lemma hashGenerator_returns_sum (artifact : string) (fileObject : bytes)
    (tr : list Event) (sha : string) :
  hashGenerator L artifact fileObject = (tr, Ret sha) ->
  exists hashed, sha = Hex.EncodeToString (SHA256.Sum256 hashed).
Proof.
  intros H.
  destruct (HasSuffix artifact ".gz") eqn:Hs.
  - destruct (gzip_NewReader L fileObject) as [gz | e] eqn:Hg.
    + rewrite (hashGenerator_gz_stream _ _ gz Hs Hg) in H.
      apply (f_equal (fun m => returned sha (snd m))) in H.
      cbn [snd returned] in H. exists (gz_out gz). symmetry. exact H.
    + rewrite (hashGenerator_gz_header _ _ e Hs Hg) in H.
      apply (f_equal snd) in H. discriminate H.
  - rewrite (hashGenerator_plain _ _ Hs) in H.
    apply (f_equal (fun m => returned sha (snd m))) in H.
    cbn [snd returned] in H. exists fileObject. symmetry. exact H.
Qed.

End HashGenerator.

Opaque SHA256.Sum256.

(** ** The content hasher: claims C3, C4, C6 and C10 *)

(** C3.  The content hash is deterministic and transparent to gzip: the
    same name and bytes give the same result, and for a name with the
    [.gz] suffix and bytes [z] that the gzip reader decodes to [b] without
    error, the digest returned is the one returned for [b] under a name
    without the suffix. *)
Theorem hash_deterministic_and_gzip_transparent :
  forall (L : Lib) (name plain : string) (z b : bytes),
    HasSuffix name ".gz" = true ->
    HasSuffix plain ".gz" = false ->
    gzip_NewReader L z = Ok (mkGz b None) ->
    hashGenerator L name b = hashGenerator L name b /\
    snd (hashGenerator L name z) = snd (hashGenerator L plain b) /\
    snd (hashGenerator L plain b) =
    Ret (Hex.EncodeToString (SHA256.Sum256 b)).
Proof.
  intros L name plain z b Hgz Hplain Hdec.
  rewrite (hashGenerator_gz_stream L name z _ Hgz Hdec).
  rewrite (hashGenerator_plain L plain b Hplain).
  repeat split.
Qed.

Lemma hash_deterministic_and_gzip_transparent_witness :
  hashGenerator RefLib "a.gz" Test.hello =
  hashGenerator RefLib "a.gz" Test.hello /\
  snd (hashGenerator RefLib "a.gz" (Gzip.Store Test.hello)) =
  snd (hashGenerator RefLib "a" Test.hello) /\
  snd (hashGenerator RefLib "a" Test.hello) =
  Ret (Hex.EncodeToString (SHA256.Sum256 Test.hello)).
Proof.
  apply (hash_deterministic_and_gzip_transparent
           RefLib "a.gz" "a" (Gzip.Store Test.hello) Test.hello);
    vm_compute; reflexivity.
Defined.

(** C4, as stated, fails: the name has the gzip suffix, the bytes are a
    gzip member cut inside its stored block, and the hasher returns a
    digest, the one of the three bytes that were decompressed. *)
Lemma gzip_failure_counterexample :
  HasSuffix "artifact.gz" ".gz" = true /\
  gzip_NewReader RefLib Test.truncated_gz =
    Ok (mkGz (bytes_of_string "hel") (Some Gzip.io_ErrUnexpectedEOF)) /\
  hashGenerator RefLib "artifact.gz" Test.truncated_gz =
    ([EvLog Info "gzipped content detected";
      EvLog Error "Error:unexpected EOF"],
     Ret "d6a81f224bbf2f7c22baddbd5d40730eb20cfb0b3d74e10cab61788214caceb1").
Proof. vm_compute. repeat split. Qed.

(** C4, amended.  For a name with the gzip suffix and bytes whose gzip
    header is read but whose stream then ends in an error, the hasher logs
    the error and returns the hex SHA-256 of the bytes decompressed before
    the error; the run goes on. *)
Theorem gzip_stream_error_is_logged_and_hashed :
  forall (L : Lib) (name : string) (z out : bytes) (err : error),
    HasSuffix name ".gz" = true ->
    gzip_NewReader L z = Ok (mkGz out (Some err)) ->
    hashGenerator L name z =
    ([EvLog Info "gzipped content detected"; EvLog Error ("Error:" ++ err)],
     Ret (Hex.EncodeToString (SHA256.Sum256 out))).
Proof.
  intros L name z out err Hgz Hdec.
  now rewrite (hashGenerator_gz_stream L name z _ Hgz Hdec).
Qed.

Lemma gzip_stream_error_is_logged_and_hashed_witness :
  hashGenerator RefLib "artifact.gz" Test.truncated_gz =
  ([EvLog Info "gzipped content detected";
    EvLog Error ("Error:" ++ Gzip.io_ErrUnexpectedEOF)],
   Ret (Hex.EncodeToString (SHA256.Sum256 (bytes_of_string "hel")))).
Proof.
  apply (gzip_stream_error_is_logged_and_hashed
           RefLib "artifact.gz" Test.truncated_gz (bytes_of_string "hel")
           Gzip.io_ErrUnexpectedEOF);
    vm_compute; reflexivity.
Defined.

(** C6, as stated, fails on its example: the digest of ["hello\n"] is not
    the 63-character string of the claim. *)
Lemma hello_digest_counterexample :
  HasSuffix Test.artifact ".gz" = false /\
  snd (hashGenerator RefLib Test.artifact Test.hello) <>
  Ret "5891b5b522d5df086d0ff0b110fbd9d21bb4fc7163af34d08286a2e846f6be0".
Proof.
  split; [vm_compute; reflexivity |].
  vm_compute. intros H.
  apply (f_equal (fun o => String.length (returned "" o))) in H.
  vm_compute in H. discriminate H.
Qed.

(** C6, amended.  For every name without the gzip suffix and every byte
    sequence, the hasher returns the lowercase hex encoding of the
    SHA-256 of the bytes and logs nothing; for ["hello\n"] that is
    [5891b5b522d5df086d0ff0b110fbd9d21bb4fc7163af34d08286a2e846f6be03]. *)
Theorem plain_hash_is_hex_sha256 :
  forall (L : Lib) (name : string) (b : bytes),
    HasSuffix name ".gz" = false ->
    hashGenerator L name b =
      ([], Ret (Hex.EncodeToString (SHA256.Sum256 b))) /\
    Hex.EncodeToString (SHA256.Sum256 Test.hello) =
      "5891b5b522d5df086d0ff0b110fbd9d21bb4fc7163af34d08286a2e846f6be03".
Proof.
  intros L name b H. split.
  - exact (hashGenerator_plain L name b H).
  - vm_compute. reflexivity.
Qed.

Lemma plain_hash_is_hex_sha256_witness :
  hashGenerator RefLib Test.artifact Test.hello =
    ([], Ret (Hex.EncodeToString (SHA256.Sum256 Test.hello))) /\
  Hex.EncodeToString (SHA256.Sum256 Test.hello) =
    "5891b5b522d5df086d0ff0b110fbd9d21bb4fc7163af34d08286a2e846f6be03".
Proof.
  apply (plain_hash_is_hex_sha256 RefLib Test.artifact Test.hello).
  vm_compute. reflexivity.
Defined.

(** C10.  Whenever the hasher returns a digest, it is a string of exactly
    64 characters, each one of [0123456789abcdef], whatever the name, the
    input and the branch taken. *)
Theorem digest_is_64_lower_hex :
  forall (L : Lib) (name : string) (b : bytes) (tr : list Event)
         (sha : string),
    hashGenerator L name b = (tr, Ret sha) ->
    String.length sha = 64%nat /\
    forallb Hex.is_lower_hex (list_ascii_of_string sha) = true.
Proof.
  intros L name b tr sha H.
  destruct (hashGenerator_returns_sum L name b tr sha H) as [hashed ->].
  split.
  - now rewrite EncodeToString_length, Sum256_length.
  - apply EncodeToString_lower_hex.
Qed.

Lemma digest_is_64_lower_hex_witness :
  String.length
    "5891b5b522d5df086d0ff0b110fbd9d21bb4fc7163af34d08286a2e846f6be03" =
  64%nat /\
  forallb Hex.is_lower_hex
    (list_ascii_of_string
       "5891b5b522d5df086d0ff0b110fbd9d21bb4fc7163af34d08286a2e846f6be03") =
  true.
Proof.
  apply (digest_is_64_lower_hex RefLib Test.artifact Test.hello []).
  vm_compute. reflexivity.
Defined.

(* ================================================================= *)
(** * The armor probe: claims C7 and C8 *)

(** ** Substrings *)

Lemma bytes_HasPrefix_app_r (s prefix t : bytes) :
  bytes_HasPrefix s prefix = true -> bytes_HasPrefix (s ++ t) prefix = true.
Proof.
  revert s. induction prefix as [| p prefix IH]; intros s H.
  - destruct (s ++ t); reflexivity.
  - destruct s as [| c s]; simpl in *; [discriminate |].
    apply andb_true_iff in H as [Hc Hs]. now rewrite Hc, IH.
Qed.

Lemma bytes_Contains_app_l (a t sep : bytes) :
  bytes_Contains t sep = true -> bytes_Contains (a ++ t) sep = true.
Proof.
  intros H. induction a as [| x a IH]; [exact H |].
  cbn [app bytes_Contains]. rewrite IH. apply orb_true_r.
Qed.

Lemma bytes_Contains_of_prefix (s sep : bytes) :
  bytes_HasPrefix s sep = true -> bytes_Contains s sep = true.
Proof. intros H. destruct s; cbn [bytes_Contains]; rewrite H; reflexivity. Qed.

(** A piece with the prefix [sep], wherever it lies in [s], makes [s]
    contain [sep]. *)
Lemma bytes_Contains_infix (a l b sep : bytes) :
  bytes_HasPrefix l sep = true ->
  bytes_Contains (a ++ l ++ b) sep = true.
Proof.
  intros H. apply bytes_Contains_app_l, bytes_Contains_of_prefix.
  now apply bytes_HasPrefix_app_r.
Qed.

(** ** bytes.TrimSpace returns a piece of its argument *)

Lemma trim_left_suffix (fuel : nat) (s : bytes) :
  exists a, s = a ++ trim_left fuel s.
Proof.
  revert s. induction fuel as [| fuel IH]; intros s; cbn [trim_left].
  - now exists [].
  - destruct (space_rune s) as [| n]; [now exists [] |].
    destruct (IH (skipn (S n) s)) as [a Ha].
    exists (firstn (S n) s ++ a).
    rewrite <- app_assoc, <- Ha. symmetry. apply firstn_skipn.
Qed.

Lemma trim_left_rev_suffix (fuel : nat) (r : bytes) :
  exists a, r = a ++ trim_left_rev fuel r.
Proof.
  revert r. induction fuel as [| fuel IH]; intros r; cbn [trim_left_rev].
  - now exists [].
  - destruct (space_rune_last r) as [| n]; [now exists [] |].
    destruct (IH (skipn (S n) r)) as [a Ha].
    exists (firstn (S n) r ++ a).
    rewrite <- app_assoc, <- Ha. symmetry. apply firstn_skipn.
Qed.

Lemma bytes_TrimSpace_infix (s : bytes) :
  exists a b, s = a ++ bytes_TrimSpace s ++ b.
Proof.
  unfold bytes_TrimSpace.
  destruct (trim_left_suffix (List.length s) s) as [a Ha].
  set (l := trim_left (List.length s) s) in *.
  destruct (trim_left_rev_suffix (List.length l) (rev l)) as [b Hb].
  exists a, (rev b).
  rewrite <- rev_app_distr, <- Hb, rev_involutive. exact Ha.
Qed.

(** ** bufio: what is read is the head of what was pending *)

Lemma index_newline_lt (s : bytes) (i : nat) :
  index_newline s = Some i -> (i < List.length s)%nat.
Proof.
  revert i. induction s as [| c s IH]; intros i H; simpl in *.
  - discriminate.
  - destruct (byte_is c 10).
    + injection H as <-. lia.
    + destruct (index_newline s) as [j |]; [| discriminate].
      injection H as <-. specialize (IH j eq_refl). lia.
Qed.

Lemma pending_fill (r : Bufio.Reader) :
  Bufio.pending (Bufio.fill r) = Bufio.pending r.
Proof.
  unfold Bufio.pending, Bufio.fill; cbn [Bufio.buf Bufio.under].
  now rewrite <- app_assoc, firstn_skipn.
Qed.

Lemma search_pending (r r' : Bufio.Reader) (line : bytes)
    (e : Bufio.SliceErr) :
  Bufio.search r = Some (line, e, r') ->
  Bufio.pending r = line ++ Bufio.pending r' /\
  line <> [] /\
  (e = Bufio.ErrBufferFull -> (2 <= List.length line)%nat) /\
  e <> Bufio.EOF.
Proof.
  unfold Bufio.search, Bufio.pending.
  destruct (index_newline (Bufio.buf r)) as [i |] eqn:Hi.
  - intros H. injection H as <- <- <-.
    cbn [Bufio.buf Bufio.under].
    destruct (Bufio.buf r) as [| c l]; [discriminate Hi |].
    rewrite app_assoc. cbn [app]. rewrite firstn_skipn.
    repeat split; discriminate.
  - destruct (Bufio.size <=? List.length (Bufio.buf r))%nat eqn:Hf;
      [| discriminate].
    intros H. injection H as <- <- <-.
    cbn [Bufio.buf Bufio.under].
    apply Nat.leb_le in Hf. unfold Bufio.size in Hf.
    repeat split; try discriminate.
    + intros E. rewrite E in Hf. simpl in Hf. lia.
    + intros _. lia.
Qed.

Lemma ReadSlice_pending (r r' : Bufio.Reader) (line : bytes)
    (e : Bufio.SliceErr) :
  Bufio.ReadSlice r = (line, e, r') ->
  Bufio.pending r = line ++ Bufio.pending r' /\
  (e <> Bufio.EOF -> line <> []) /\
  (e = Bufio.ErrBufferFull -> (2 <= List.length line)%nat).
Proof.
  unfold Bufio.ReadSlice.
  destruct (Bufio.search r) as [[[l0 e0] r0] |] eqn:H0.
  - intros H. injection H as <- <- <-.
    destruct (search_pending _ _ _ _ H0) as (Hp & Hne & Hfull & _).
    auto.
  - destruct (Bufio.search (Bufio.fill r)) as [[[l1 e1] r1] |] eqn:H1.
    + intros H. injection H as <- <- <-.
      destruct (search_pending _ _ _ _ H1) as (Hp & Hne & Hfull & _).
      rewrite pending_fill in Hp. auto.
    + intros H. injection H as <- <- <-.
      rewrite <- (pending_fill r). unfold Bufio.pending. simpl.
      repeat split; intros; congruence.
Qed.

Lemma rev_eq_cons {A} (l : list A) (c : A) (before : list A) :
  rev l = c :: before -> l = rev before ++ [c].
Proof.
  intros H. rewrite <- (rev_involutive l), H. reflexivity.
Qed.

(** A line that [ReadLine] returns is the head of what was pending, up to
    the line end that is dropped; and something was taken. *)
Lemma ReadLine_pending (r r' : Bufio.Reader) (l : bytes) (p : bool) :
  Bufio.ReadLine r = (Bufio.Line l p, r') ->
  exists dropped,
    Bufio.pending r = l ++ dropped ++ Bufio.pending r' /\
    l ++ dropped <> [].
Proof.
  unfold Bufio.ReadLine.
  destruct (Bufio.ReadSlice r) as [[line e] r1] eqn:Hs.
  destruct (ReadSlice_pending _ _ _ _ Hs) as (Hp & Hne & Hfull).
  destruct e.
  - (* a whole line *)
    specialize (Hne ltac:(discriminate)).
    destruct (rev line) as [| c before] eqn:Hr.
    { apply (f_equal (@rev byte)) in Hr. rewrite rev_involutive in Hr.
      simpl in Hr. contradiction. }
    apply rev_eq_cons in Hr.
    destruct (byte_is c 10).
    + destruct before as [| d before'].
      * intros H. injection H as <- <- <-. exists line. split; auto.
      * destruct (byte_is d 13); intros H; injection H as <- <- <-.
        -- exists [d; c]. cbn [rev] in Hr. rewrite <- app_assoc in Hr.
           rewrite Hp, Hr. split.
           ++ app_eq.
           ++ nonnil.
        -- exists [c]. rewrite Hp, Hr. split.
           ++ app_eq.
           ++ nonnil.
    + intros H. injection H as <- <- <-. exists []. split; auto.
      now rewrite app_nil_r.
  - (* the buffer is full *)
    specialize (Hfull eq_refl).
    destruct (rev line) as [| c before] eqn:Hr.
    { intros H. injection H as <- <- <-. exists []. split; auto.
      rewrite app_nil_r. intros E. rewrite E in Hfull. simpl in Hfull. lia. }
    apply rev_eq_cons in Hr.
    destruct (byte_is c 13); intros H; injection H as <- <- <-.
    + exists []. unfold Bufio.pending in *. simpl.
      rewrite Hp, Hr, <- !app_assoc. split; [reflexivity |].
      rewrite app_nil_r. intros E.
      rewrite Hr, E in Hfull. simpl in Hfull. lia.
    + exists []. split; auto.
      rewrite app_nil_r. intros E. rewrite E in Hfull. simpl in Hfull. lia.
  - (* the end of the file *)
    destruct (rev line) as [| c before] eqn:Hr; [discriminate |].
    apply rev_eq_cons in Hr.
    destruct (byte_is c 10).
    + destruct before as [| d before'].
      * intros H. injection H as <- <- <-. exists line. split; auto.
        rewrite Hr. discriminate.
      * destruct (byte_is d 13); intros H; injection H as <- <- <-.
        -- exists [d; c]. cbn [rev] in Hr. rewrite <- app_assoc in Hr.
           rewrite Hp, Hr. split.
           ++ app_eq.
           ++ nonnil.
        -- exists [c]. rewrite Hp, Hr. split.
           ++ app_eq.
           ++ nonnil.
    + intros H. injection H as <- <- <-. exists []. split.
      * exact Hp.
      * rewrite app_nil_r, Hr. nonnil.
Qed.

(** ** armor.Decode *)

(** Without a line start [-----BEGIN ] anywhere in what is pending, the
    scan stays in its first loop until the input ends. *)
Lemma scan_no_armor_start (fuel : nat) :
  forall (ignoreThis : bool) (r r' : Bufio.Reader) (e : option error),
    bytes_Contains (Bufio.pending r) Armor.armorStart = false ->
    Armor.scan fuel (Armor.SkipGarbage ignoreThis) r = Some (e, r') ->
    e = Some Armor.io_EOF.
Proof.
  induction fuel as [| fuel IH]; intros ig r r' e Hno Hscan;
    [discriminate Hscan |].
  cbn [Armor.scan] in Hscan.
  destruct (Bufio.ReadLine r) as [[line isPrefix |] r1] eqn:Hl.
  - destruct (ReadLine_pending _ _ _ _ Hl) as (dropped & Hp & _).
    assert (Hno1 : bytes_Contains (Bufio.pending r1) Armor.armorStart = false).
    { destruct (bytes_Contains (Bufio.pending r1) Armor.armorStart) eqn:E;
        [| reflexivity].
      rewrite Hp, app_assoc, (bytes_Contains_app_l _ _ _ E) in Hno.
      discriminate Hno. }
    destruct (isPrefix || ig).
    + exact (IH _ _ _ _ Hno1 Hscan).
    + destruct (bytes_HasPrefix (bytes_TrimSpace line) Armor.armorStart)
        eqn:Hpre.
      * exfalso.
        destruct (bytes_TrimSpace_infix line) as (a & b & Hline).
        rewrite Hp, Hline, <- !app_assoc in Hno.
        rewrite (bytes_Contains_infix a _ _ _ Hpre) in Hno.
        discriminate Hno.
      * rewrite andb_false_r in Hscan. exact (IH _ _ _ _ Hno1 Hscan).
  - injection Hscan as <- _. reflexivity.
Qed.

Lemma Decode_no_armor_start (x : bytes) :
  no_armor_start x -> fst (Armor.Decode (Bytes x)) = Some Armor.io_EOF.
Proof.
  intros Hno. unfold Armor.Decode.
  destruct (Armor.scan (S (List.length x)) (Armor.SkipGarbage false)
              (Bufio.NewReaderSize x)) as [[e r] |] eqn:Hscan;
    [| reflexivity].
  cbn [fst].
  exact (scan_no_armor_start _ _ (Bufio.NewReaderSize x) _ _ Hno Hscan).
Qed.

Lemma Decode_Encode_signature (x : bytes) :
  fst (Armor.Decode (Bytes (Armor.Encode "PGP SIGNATURE" x))) = None.
Proof.
  unfold Armor.Encode.
  generalize (Armor.break_lines (List.length (Armor.base64 x)) 64
                (Armor.base64 x)
              ++ bytes_of_string (String "010" "=")
              ++ Armor.base64
                   [byte_of_Z (Z.shiftr (Armor.crc24 Armor.crc24Init x) 16);
                    byte_of_Z (Z.shiftr (Armor.crc24 Armor.crc24Init x) 8);
                    byte_of_Z (Armor.crc24 Armor.crc24Init x)]
              ++ Armor.newline ++ Armor.armorEnd
              ++ bytes_of_string "PGP SIGNATURE" ++ Armor.armorEndOfLine).
  intros tail. vm_compute. reflexivity.
Qed.

Lemma Decode_Encode_public_key (x : bytes) :
  fst (Armor.Decode (Bytes (Armor.Encode "PGP PUBLIC KEY BLOCK" x))) = None.
Proof.
  unfold Armor.Encode.
  generalize (Armor.break_lines (List.length (Armor.base64 x)) 64
                (Armor.base64 x)
              ++ bytes_of_string (String "010" "=")
              ++ Armor.base64
                   [byte_of_Z (Z.shiftr (Armor.crc24 Armor.crc24Init x) 16);
                    byte_of_Z (Z.shiftr (Armor.crc24 Armor.crc24Init x) 8);
                    byte_of_Z (Armor.crc24 Armor.crc24Init x)]
              ++ Armor.newline ++ Armor.armorEnd
              ++ bytes_of_string "PGP PUBLIC KEY BLOCK"
              ++ Armor.armorEndOfLine).
  intros tail. vm_compute. reflexivity.
Qed.


(** Every read of a line takes something, so the scan ends before its fuel:
    with more fuel than pending bytes it never runs out. *)
Lemma scan_fuel_enough (fuel : nat) :
  forall (m : Armor.Mode) (r : Bufio.Reader),
    (List.length (Bufio.pending r) < fuel)%nat ->
    Armor.scan fuel m r <> None.
Proof.
  induction fuel as [| fuel IH]; intros m r Hlen; [lia |].
  cbn [Armor.scan].
  destruct (Bufio.ReadLine r) as [[line isPrefix |] r1] eqn:Hl;
    [| discriminate].
  destruct (ReadLine_pending _ _ _ _ Hl) as (dropped & Hp & Hne).
  assert (Hlt : (List.length (Bufio.pending r1) < fuel)%nat).
  { rewrite Hp, app_assoc, length_app in Hlen.
    destruct (line ++ dropped); [contradiction | simpl in Hlen; lia]. }
  destruct m as [ig | cont].
  - destruct (isPrefix || ig); [now apply IH |].
    destruct (_ && _); now apply IH.
  - destruct cont; [now apply IH |].
    destruct (bytes_TrimSpace line); [discriminate |].
    destruct (bytes_Contains _ _); now apply IH.
Qed.

Section Probe.

Variable L : Lib.

(** On a file that can seek the probe returns the handle at offset 0,
    logs nothing, and answers [decodes]. *)
Lemma isArmorProtected_seekable (f : File) :
  seekable f = true ->
  isArmorProtected L (Some f) =
  ([], Ret (Some (mkFile (data f) 0 true), decodes L (Some f))).
Proof.
  intros Hs. unfold isArmorProtected, decodes.
  destruct (armor_Decode L (source_of (Some f))) as [d n].
  cbn [advance Seek_start seekable data fst]. rewrite Hs.
  destruct d; reflexivity.
Qed.

(** On any handle the probe returns, answers [decodes], and leaves only
    log lines in the trace. *)
Lemma isArmorProtected_returns (f : Handle) :
  exists tr f',
    isArmorProtected L f = (tr, Ret (f', decodes L f)) /\
    forallb quiet tr = true.
Proof.
  unfold isArmorProtected, decodes.
  destruct (armor_Decode L (source_of f)) as [d n]. cbn [fst].
  destruct (Seek_start (advance f n)) as [f' [e |]];
    destruct d; eexists; eexists; split; reflexivity.
Qed.

End Probe.

(** C7.  With the framing scan of the armor library, classifying the
    armored encoding of any payload, as a signature or as a public key
    block, gives [Armored]; classifying bytes that hold no [-----BEGIN ]
    anywhere gives [Binary]. *)
Theorem classify_armor_roundtrip :
  forall (L : Lib),
    armor_Decode L = Armor.Decode ->
    (forall x : bytes,
        classify L (Armor.Encode "PGP SIGNATURE" x) = Armored /\
        classify L (Armor.Encode "PGP PUBLIC KEY BLOCK" x) = Armored) /\
    (forall x : bytes, no_armor_start x -> classify L x = Binary).
Proof.
  intros L HL. unfold classify. split; [intros x; split | intros x Hno].
  - rewrite isArmorProtected_seekable by reflexivity.
    unfold decodes. rewrite HL. cbn [source_of offset data skipn snd].
    now rewrite Decode_Encode_signature.
  - rewrite isArmorProtected_seekable by reflexivity.
    unfold decodes. rewrite HL. cbn [source_of offset data skipn snd].
    now rewrite Decode_Encode_public_key.
  - rewrite isArmorProtected_seekable by reflexivity.
    unfold decodes. rewrite HL. cbn [source_of offset data skipn snd].
    now rewrite (Decode_no_armor_start x Hno).
Qed.

Lemma classify_armor_roundtrip_witness :
  (classify RefLib (Armor.Encode "PGP SIGNATURE" Test.good_sig) = Armored /\
   classify RefLib (Armor.Encode "PGP PUBLIC KEY BLOCK" Test.key) = Armored)
  /\ classify RefLib Test.good_sig = Binary.
Proof.
  destruct (classify_armor_roundtrip RefLib eq_refl) as [Harm Hbin].
  split.
  - split; [apply (Harm Test.good_sig) | apply (Harm Test.key)].
  - apply (Hbin Test.good_sig). vm_compute. reflexivity.
Defined.




(* ================================================================= *)
(** * The run: claims C1, C2, C5 and C9 *)

(** One step in showing that a trace holds only events with [p]: through
    a [bind], or by cases on what a library or the world answered. *)
Ltac trace_step :=
  match goal with
  | |- forallb _ (fst (bind _ _)) = true =>
      apply bind_forallb; [| intros ? _]
  | |- forallb _ (fst (match ?x with _ => _ end)) = true => destruct x
  | |- forallb _ (fst (if ?b then _ else _)) = true => destruct b
  | |- forallb _ (fst _) = true => reflexivity
  end.

(** Unfolds the monad on what is already known. *)
Tactic Notation "step_cbn" :=
  cbn [bind ret emit log_Info log_Error log_Fatal os_Exit nil_dereference
       fst snd].
Tactic Notation "step_cbn" "in" hyp(H) :=
  cbn [bind ret emit log_Info log_Error log_Fatal os_Exit nil_dereference
       fst snd] in H.

Section Stages.

Variable L : Lib.

Lemma hashGenerator_quiet (artifact : string) (fileObject : bytes) :
  forallb quiet (fst (hashGenerator L artifact fileObject)) = true.
Proof. unfold hashGenerator, io_Copy. repeat trace_step. Qed.

Lemma isArmorProtected_quiet (f : Handle) :
  forallb quiet (fst (isArmorProtected L f)) = true.
Proof.
  destruct (isArmorProtected_returns L f) as (tr & f' & -> & H). exact H.
Qed.

Lemma prepare_quiet (w : World) : forallb quiet (fst (prepare L w)) = true.
Proof.
  unfold prepare. repeat trace_step. apply hashGenerator_quiet.
Qed.

(** The key ring stage and the signature check always return, and leave
    only log lines. *)
Lemma load_keyring_returns (f : Handle) :
  exists tr f' keyRing,
    load_keyring L f = (tr, Ret (f', keyRing)) /\ forallb quiet tr = true.
Proof.
  unfold load_keyring.
  destruct (isArmorProtected_returns L f) as (tr & f1 & -> & Hq).
  rewrite bind_Ret. cbn [fst snd].
  destruct (decodes L f).
  - destruct (openpgp_ReadArmoredKeyRing L (source_of f1))
      as [[keyRing [e |]] n];
      eexists; eexists; eexists; (split; [reflexivity |]);
      rewrite forallb_app, Hq; reflexivity.
  - destruct (openpgp_ReadKeyRing L (source_of f1)) as [[keyRing [e |]] n];
      eexists; eexists; eexists; (split; [reflexivity |]);
      rewrite forallb_app, Hq; reflexivity.
Qed.

Lemma check_signature_returns (keyRing : EntityList L) (body : bytes)
    (f : Handle) :
  exists tr f' err,
    check_signature L keyRing body f = (tr, Ret (f', err)) /\
    forallb quiet tr = true.
Proof.
  unfold check_signature.
  destruct (isArmorProtected_returns L f) as (tr & f1 & -> & Hq).
  rewrite bind_Ret. cbn [fst snd].
  destruct (decodes L f).
  - destruct (openpgp_CheckArmoredDetachedSignature L keyRing body
                (source_of f1)) as [[e |] n];
      eexists; eexists; eexists; (split; [reflexivity |]);
      rewrite forallb_app, Hq; reflexivity.
  - destruct (openpgp_CheckDetachedSignature L keyRing body (source_of f1))
      as [[e |] n];
      eexists; eexists; eexists; (split; [reflexivity |]);
      rewrite forallb_app, Hq; reflexivity.
Qed.

(** [verify] after a check that failed: the error is logged and the
    process exits with status 1. *)
Lemma verify_failure (keyRing : EntityList L) (body : bytes) (f f' : Handle)
    (tr : list Event) (err : error) :
  check_signature L keyRing body f = (tr, Ret (f', Some err)) ->
  verify L keyRing body f =
  (tr ++ [EvLog Error ("Signature Verification failed: " ++ err)], Exit 1).
Proof. intros H. unfold verify. rewrite H. reflexivity. Qed.

(** [verify] after a check that passed. *)
Lemma verify_success (keyRing : EntityList L) (body : bytes) (f f' : Handle)
    (tr : list Event) :
  check_signature L keyRing body f = (tr, Ret (f', None)) ->
  verify L keyRing body f =
  (tr ++ [EvLog Info "Signature validation passed"], Ret f').
Proof. intros H. unfold verify. rewrite H. reflexivity. Qed.

Lemma verify_quiet (keyRing : EntityList L) (body : bytes) (f : Handle) :
  forallb quiet (fst (verify L keyRing body f)) = true.
Proof.
  destruct (check_signature_returns keyRing body f)
    as (tr & f' & [e |] & H & Hq).
  - rewrite (verify_failure _ _ _ _ _ _ H). cbn [fst].
    now rewrite forallb_app, Hq.
  - rewrite (verify_success _ _ _ _ _ H). cbn [fst].
    now rewrite forallb_app, Hq.
Qed.

(** [verify] returns only after a check without error. *)
Lemma verify_returns_checked (keyRing : EntityList L) (body : bytes)
    (f f' : Handle) (tr : list Event) :
  verify L keyRing body f = (tr, Ret f') ->
  exists tr0,
    check_signature L keyRing body f = (tr0, Ret (f', None)).
Proof.
  intros H.
  destruct (check_signature_returns keyRing body f)
    as (tr0 & f0 & [e |] & Hc & _).
  - rewrite (verify_failure _ _ _ _ _ _ Hc) in H.
    apply (f_equal snd) in H. discriminate H.
  - rewrite (verify_success _ _ _ _ _ Hc) in H.
    injection H as _ <-. now exists tr0.
Qed.

Lemma quiet_no_marshal (tr : list Event) :
  forallb quiet tr = true -> filter is_marshal tr = [].
Proof.
  induction tr as [| e tr IH]; [reflexivity |].
  cbn [forallb filter]. intros H. apply andb_true_iff in H as [He Ht].
  destruct e; try discriminate He; now apply IH.
Qed.

Lemma quiet_no_post (tr : list Event) :
  forallb quiet tr = true -> filter is_post tr = [].
Proof.
  induction tr as [| e tr IH]; [reflexivity |].
  cbn [forallb filter]. intros H. apply andb_true_iff in H as [He Ht].
  destruct e; try discriminate He; now apply IH.
Qed.

(** [build] never sends anything; it serializes at most one entry, and the
    entry is the armored one exactly when a new probe of the signature
    handle, or else of the key handle, as the earlier readers left them,
    finds an armor block. *)
Lemma build_marshals (w : World) (l : Locals) (sigH pubH : Handle) :
  filter is_post (fst (build L w l sigH pubH)) = [] /\
  (filter is_marshal (fst (build L w l sigH pubH)) = [] \/
   exists sigKey pubKey,
     filter is_marshal (fst (build L w l sigH pubH)) =
     [EvMarshal
        (entry_of l (decodes L sigH || decodes L pubH) sigKey pubKey)] /\
     (decodes L sigH || decodes L pubH = false ->
      ioutil_ReadFile w (publicKey l) = Ok pubKey /\
      ioutil_ReadFile w (signature l) = Ok sigKey)) /\
  (forall tr m,
      build L w l sigH pubH = (tr, Ret m) ->
      exists e, In (EvMarshal e) tr /\ json_Marshal L e = Ok m).
Proof.
  unfold build, marshal.
  destruct (isArmorProtected_returns L sigH) as (ts & s1 & -> & Hs).
  pose proof (quiet_no_post _ Hs) as Hsp.
  pose proof (quiet_no_marshal _ Hs) as Hsm.
  destruct (isArmorProtected_returns L pubH) as (tp & p1 & Hprobe & Hp).
  pose proof (quiet_no_post _ Hp) as Hpp.
  pose proof (quiet_no_marshal _ Hp) as Hpm.
  cbn [bind ret fst snd].
  destruct (decodes L sigH); cbn [orb bind ret fst snd].
  - destruct (json_Marshal L _) as [m | e] eqn:Hm;
      cbn [bind emit log_Fatal ret fst snd];
      rewrite ?filter_app, ?Hsp, ?Hsm; cbn [filter is_post is_marshal app];
      (split; [reflexivity |]);
      (split; [right; exists [], []; split; [reflexivity | discriminate] |]);
      intros tr m' H.
    + apply (f_equal snd) in H as H'. cbn [snd] in H'.
      apply (f_equal (returned m')) in H'. cbn [returned] in H'. subst m'.
      apply (f_equal fst) in H. cbn [fst] in H. subst tr.
      eexists. split; [| exact Hm]. apply in_or_app. right. left. reflexivity.
    + apply (f_equal snd) in H. discriminate H.
  - rewrite Hprobe. cbn [bind ret fst snd].
    destruct (decodes L pubH); cbn [bind ret fst snd].
    + destruct (json_Marshal L _) as [m | e] eqn:Hm;
        cbn [bind emit log_Fatal ret fst snd];
        rewrite ?filter_app, ?Hsp, ?Hsm, ?Hpp, ?Hpm;
        cbn [filter is_post is_marshal app];
        (split; [reflexivity |]);
        (split; [right; exists [], []; split; [reflexivity | discriminate] |]);
        intros tr m' H.
      * apply (f_equal snd) in H as H'. cbn [snd] in H'.
        apply (f_equal (returned m')) in H'. cbn [returned] in H'. subst m'.
        apply (f_equal fst) in H. cbn [fst] in H. subst tr.
        eexists. split; [| exact Hm].
        apply in_or_app. right. apply in_or_app. right. left. reflexivity.
      * apply (f_equal snd) in H. discriminate H.
    + destruct (ioutil_ReadFile w (publicKey l)) as [pubKey | e1] eqn:Hpk;
        cbn [bind emit log_Fatal ret fst snd].
      2:{ rewrite ?filter_app, ?Hsp, ?Hsm, ?Hpp, ?Hpm.
          cbn [filter is_post is_marshal app].
          split; [reflexivity |]. split; [left; reflexivity |].
          intros tr m H. apply (f_equal snd) in H. discriminate H. }
      destruct (ioutil_ReadFile w (signature l)) as [sigKey | e2] eqn:Hsk;
        cbn [bind emit log_Fatal ret fst snd].
      2:{ rewrite ?filter_app, ?Hsp, ?Hsm, ?Hpp, ?Hpm.
          cbn [filter is_post is_marshal app].
          split; [reflexivity |]. split; [left; reflexivity |].
          intros tr m H. apply (f_equal snd) in H. discriminate H. }
      destruct (json_Marshal L _) as [m | e] eqn:Hm;
        cbn [bind emit log_Fatal ret fst snd];
        rewrite ?filter_app, ?Hsp, ?Hsm, ?Hpp, ?Hpm;
        cbn [filter is_post is_marshal app];
        (split; [reflexivity |]);
        (split; [right; exists sigKey, pubKey; split;
          [reflexivity | intros _; split; reflexivity] |]);
        intros tr m' H.
      * apply (f_equal snd) in H as H'. cbn [snd] in H'.
        apply (f_equal (returned m')) in H'. cbn [returned] in H'. subst m'.
        apply (f_equal fst) in H. cbn [fst] in H. subst tr.
        eexists. split; [| exact Hm].
        repeat (apply in_or_app; right). left. reflexivity.
      * apply (f_equal snd) in H. discriminate H.
Qed.



(** The run as the sequence of its stages. *)
Lemma Run_stages (w : World) (l : Locals) (t1 t2 : list Event)
    (pubH : Handle) (keyRing : EntityList L) :
  prepare L w = (t1, Ret l) ->
  load_keyring L (pubkeyRingReader l) = (t2, Ret (pubH, keyRing)) ->
  Run L w =
  (t1 ++ t2 ++
     fst (sigH <- verify L keyRing (readBody l) (sigkeyRingReader l) ;;
          marshalledRekorEntry <- build L w l sigH pubH ;;
          submit L w (url l) marshalledRekorEntry),
   snd (sigH <- verify L keyRing (readBody l) (sigkeyRingReader l) ;;
        marshalledRekorEntry <- build L w l sigH pubH ;;
        submit L w (url l) marshalledRekorEntry)).
Proof.
  intros Hp Hk. unfold Run. rewrite Hp, bind_Ret, Hk, bind_Ret.
  cbn [fst snd]. reflexivity.
Qed.

(** A run in which the signature check fails. *)
Lemma Run_check_failure (w : World) (l : Locals) (t1 t2 t3 : list Event)
    (pubH sigH : Handle) (keyRing : EntityList L) (err : error) :
  prepare L w = (t1, Ret l) ->
  load_keyring L (pubkeyRingReader l) = (t2, Ret (pubH, keyRing)) ->
  check_signature L keyRing (readBody l) (sigkeyRingReader l) =
    (t3, Ret (sigH, Some err)) ->
  Run L w =
  (t1 ++ t2 ++ t3
      ++ [EvLog Error ("Signature Verification failed: " ++ err)],
   Exit 1) /\
  forallb quiet (fst (Run L w)) = true.
Proof.
  intros Hp Hk Hc.
  rewrite (Run_stages w l t1 t2 pubH keyRing Hp Hk).
  rewrite (verify_failure _ _ _ _ _ _ Hc). cbn [bind fst snd].
  split; [reflexivity |].
  pose proof (prepare_quiet w) as Q1. rewrite Hp in Q1.
  destruct (load_keyring_returns (pubkeyRingReader l))
    as (t2' & p' & k' & Hk' & Q2).
  rewrite Hk in Hk'. apply (f_equal fst) in Hk'. cbn [fst] in Hk'. subst t2'.
  destruct (check_signature_returns keyRing (readBody l) (sigkeyRingReader l))
    as (t3' & s' & e' & Hc' & Q3).
  rewrite Hc in Hc'. apply (f_equal fst) in Hc'. cbn [fst] in Hc'. subst t3'.
  cbn [fst] in Q1. now rewrite !forallb_app, Q1, Q2, Q3.
Qed.

(** What [prepare] hands on when it returns: the configuration, the two
    formatted texts, the body of the response whatever its status, and the
    digest the hasher returned for that body. *)
Lemma prepare_returns (w : World) (t : list Event) (l : Locals) :
  prepare L w = (t, Ret l) ->
  url l = (viper_GetString w "rekor_server" ++ "/api/v1/add")%string /\
  signature l = viper_GetString w "signature" /\
  publicKey l = viper_GetString w "public-key" /\
  artifactURL l = viper_GetString w "artifact-url" /\
  pkg_FormatSignature w (signature l) = Ok (sig l) /\
  pkg_FormatPubKey w (publicKey l) = Ok (pub_key l) /\
  exists resp err th,
    http_Get w (artifactURL l) = (Some resp, err) /\
    readBody l = Body resp /\
    hashGenerator L (artifactURL l) (Body resp) = (th, Ret (generatedSha l)).
Proof.
  unfold prepare. intros H.
  destruct (pkg_FormatSignature w _) as [s | e] eqn:Hs;
    [| apply (f_equal snd) in H; discriminate H].
  destruct (pkg_FormatPubKey w _) as [p | e] eqn:Hk;
    [| apply (f_equal snd) in H; discriminate H].
  destruct (http_Get w _) as [[resp |] getErr] eqn:Hg.
  2:{ destruct getErr; apply (f_equal snd) in H; discriminate H. }
  assert (Hcont :
    exists t0,
      (generatedSha <-
         hashGenerator L (viper_GetString w "artifact-url") (Body resp) ;;
       ret (mkLocals (viper_GetString w "rekor_server" ++ "/api/v1/add")
              (viper_GetString w "signature")
              (viper_GetString w "public-key")
              (viper_GetString w "artifact-url") s p (Body resp)
              generatedSha
              (match os_Open w (viper_GetString w "public-key") with
               | Ok f => Some f | Err _ => None end)
              (match os_Open w (viper_GetString w "signature") with
               | Ok f => Some f | Err _ => None end)))
      = (t0, Ret l)).
  { step_cbn in H. destruct getErr; step_cbn in H;
      destruct (BodyErr resp); step_cbn in H;
      destruct (hashGenerator L _ (Body resp)) as [th [sha | c | msg]];
      step_cbn in H;
      try (apply (f_equal snd) in H; discriminate H);
      destruct (os_Open w (viper_GetString w "public-key")),
        (os_Open w (viper_GetString w "signature"));
      step_cbn in H;
      apply (f_equal (fun m => returned l (snd m))) in H;
      cbn [returned snd] in H; subst l;
      step_cbn; eexists; reflexivity. }
  destruct Hcont as [t0 H0].
  destruct (hashGenerator L _ (Body resp)) as [th [sha | c | msg]] eqn:Hh;
    step_cbn in H0;
    try (apply (f_equal snd) in H0; discriminate H0).
  apply (f_equal (fun m => returned l (snd m))) in H0.
  cbn [returned snd] in H0. subst l.
  cbn [url signature publicKey artifactURL sig pub_key readBody
       generatedSha].
  repeat split; try assumption.
  exists resp, getErr, th. repeat split; assumption.
Qed.

(** With both format checks passed and a response in hand, whatever its
    status and whatever error came with it, [prepare] goes on to the
    hasher and returns with the digest of the body. *)
Lemma prepare_continues (w : World) (s p : string) (resp : Response)
    (err : option error) (th : list Event) (sha : string) :
  pkg_FormatSignature w (viper_GetString w "signature") = Ok s ->
  pkg_FormatPubKey w (viper_GetString w "public-key") = Ok p ->
  http_Get w (viper_GetString w "artifact-url") = (Some resp, err) ->
  hashGenerator L (viper_GetString w "artifact-url") (Body resp)
    = (th, Ret sha) ->
  exists t l,
    prepare L w = (t, Ret l) /\
    readBody l = Body resp /\
    generatedSha l = sha.
Proof.
  intros Hs Hk Hg Hh. unfold prepare. rewrite Hs, Hk, Hg. step_cbn.
  destruct err; step_cbn; destruct (BodyErr resp); step_cbn;
    rewrite Hh; step_cbn;
    destruct (os_Open w (viper_GetString w "public-key")),
      (os_Open w (viper_GetString w "signature"));
    step_cbn; eexists; eexists; repeat split.
Qed.


End Stages.

(** C1.  If the detached-signature check returns an error, for whatever
    key ring, artifact bytes and signature the run has reached it with,
    the run ends in [os.Exit(1)], a non-zero status, and its trace holds
    neither the serialization of an entry nor a request to the log
    server. *)
Theorem verification_failure_is_fatal :
  forall (L : Lib) (w : World) (l : Locals) (t1 t2 t3 : list Event)
         (pubH sigH : Handle) (keyRing : EntityList L) (err : error),
    prepare L w = (t1, Ret l) ->
    load_keyring L (pubkeyRingReader l) = (t2, Ret (pubH, keyRing)) ->
    check_signature L keyRing (readBody l) (sigkeyRingReader l) =
      (t3, Ret (sigH, Some err)) ->
    snd (Run L w) = Exit 1 /\
    exit_status (snd (Run L w)) <> 0 /\
    filter is_marshal (fst (Run L w)) = [] /\
    filter is_post (fst (Run L w)) = [].
Proof.
  intros L w l t1 t2 t3 pubH sigH keyRing err Hp Hk Hc.
  destruct (Run_check_failure L w l t1 t2 t3 pubH sigH keyRing err Hp Hk Hc)
    as [Hrun Hq].
  rewrite Hrun in *. cbn [fst snd exit_status] in *.
  repeat split.
  - discriminate.
  - now apply quiet_no_marshal.
  - now apply quiet_no_post.
Qed.

Lemma verification_failure_is_fatal_witness :
  snd (Run RefLib Test.world_B) = Exit 1 /\
  exit_status (snd (Run RefLib Test.world_B)) <> 0 /\
  filter is_marshal (fst (Run RefLib Test.world_B)) = [] /\
  filter is_post (fst (Run RefLib Test.world_B)) = [].
Proof.
  let p := eval vm_compute in (prepare RefLib Test.world_B) in
  match p with
  | (?t1, Ret ?l) =>
      let k := eval vm_compute in
                 (load_keyring RefLib (pubkeyRingReader l)) in
      match k with
      | (?t2, Ret (?pubH, ?keyRing)) =>
          let c := eval vm_compute in
                     (check_signature RefLib keyRing (readBody l)
                        (sigkeyRingReader l)) in
          match c with
          | (?t3, Ret (?sigH, Some ?err)) =>
              apply (verification_failure_is_fatal RefLib Test.world_B
                       l t1 t2 t3 pubH sigH keyRing err);
              vm_compute; reflexivity
          end
      end
  end.
Defined.

(** C2: the code at the failing input.  The signature is armored and is
    classified [Armored] when it is loaded, the key is binary; the
    signature is valid and the run goes through, but the entry it
    serializes is the raw one, holding the bytes of the two files. *)
Theorem armored_signature_gets_raw_entry :
  classify RefLib Test.armored_sig = Armored /\
  classify RefLib Test.key = Binary /\
  snd (Run RefLib Test.world_armored) = Ret tt /\
  filter is_marshal (fst (Run RefLib Test.world_armored)) =
  [EvMarshal
     (RekorEntry
        "5891b5b522d5df086d0ff0b110fbd9d21bb4fc7163af34d08286a2e846f6be03"
        Test.artifact Test.armored_sig Test.key)].
Proof. vm_compute. repeat split. Qed.

(** C5, as stated, fails: the artifact server answers 500 with a body; no
    error is reported, the run does not stop at the fetch, and the hasher
    is given the body, whose digest is carried on. *)
Lemma fetch_500_counterexample :
  http_Get Test.world_C Test.artifact =
    (Some (mkResp 500 Test.error_page None), None) /\
  prepare RefLib Test.world_C =
    ([EvLog Info "Download artifact.."; EvHttpGet Test.artifact;
      EvLog Info "Contents fetched.."],
     Ret (mkLocals "http://rekor.example/api/v1/add" Test.sig_path
            Test.key_path Test.artifact
            (string_of_list_byte Test.good_sig)
            (string_of_list_byte Test.key)
            Test.error_page
            (Hex.EncodeToString (SHA256.Sum256 Test.error_page))
            (Some (mkFile Test.key 0 true))
            (Some (mkFile Test.good_sig 0 true)))).
Proof. vm_compute. split; reflexivity. Qed.

(** C5, amended.  If the GET returns a response, whatever its status code
    (500 included) and whatever error came with it, the pipeline does not
    stop at the fetch: the body that was read is given to the content
    hasher, and when the hasher returns, its digest is what the later
    stages work with. *)
Theorem fetch_response_is_hashed_whatever_its_status :
  forall (L : Lib) (w : World) (s p : string) (resp : Response)
         (err : option error) (th : list Event) (sha : string),
    pkg_FormatSignature w (viper_GetString w "signature") = Ok s ->
    pkg_FormatPubKey w (viper_GetString w "public-key") = Ok p ->
    http_Get w (viper_GetString w "artifact-url") = (Some resp, err) ->
    hashGenerator L (viper_GetString w "artifact-url") (Body resp)
      = (th, Ret sha) ->
    exists t l,
      prepare L w = (t, Ret l) /\
      readBody l = Body resp /\
      generatedSha l = sha.
Proof.
  intros L w s p resp err th sha. apply prepare_continues.
Qed.

Lemma fetch_response_is_hashed_whatever_its_status_witness :
  exists t l,
    prepare RefLib Test.world_C = (t, Ret l) /\
    readBody l = Body (mkResp 500 Test.error_page None) /\
    generatedSha l = Hex.EncodeToString (SHA256.Sum256 Test.error_page).
Proof.
  apply (fetch_response_is_hashed_whatever_its_status RefLib Test.world_C
           (string_of_list_byte Test.good_sig) (string_of_list_byte Test.key)
           (mkResp 500 Test.error_page None) None []);
    vm_compute; reflexivity.
Defined.



(* ================================================================= *)
(** * Further properties of the command *)

(** ** strings.HasSuffix and the choice of the gzip branch *)

Lemma string_length_append (s t : string) :
  String.length (s ++ t) = (String.length s + String.length t)%nat.
Proof. induction s as [| c s IH]; simpl; [reflexivity | now rewrite IH]. Qed.

Lemma substring_all (s : string) : substring 0 (String.length s) s = s.
Proof. induction s as [| c s IH]; simpl; [reflexivity | now rewrite IH]. Qed.

Lemma substring_append_r (p suffix : string) :
  substring (String.length p) (String.length suffix) (p ++ suffix) = suffix.
Proof.
  induction p as [| c p IH]; simpl; [apply substring_all | exact IH].
Qed.

Lemma substring_split (n m : nat) (s : string) :
  (n + m)%nat = String.length s ->
  s = (substring 0 n s ++ substring n m s)%string.
Proof.
  revert s. induction n as [| n IH]; intros s H.
  - simpl in H. subst m. rewrite substring_all.
    destruct s; reflexivity.
  - destruct s as [| c s]; simpl in *; [discriminate |].
    f_equal. apply IH. lia.
Qed.

(** [strings.HasSuffix(s, suffix)] holds exactly when [s] is some string
    followed by [suffix]. *)
Lemma HasSuffix_iff (s suffix : string) :
  HasSuffix s suffix = true <-> exists p, s = (p ++ suffix)%string.
Proof.
  unfold HasSuffix. split.
  - intros H. apply andb_true_iff in H as [Hlen Heq].
    apply Nat.leb_le in Hlen. apply String.eqb_eq in Heq.
    exists (substring 0 (String.length s - String.length suffix) s).
    rewrite <- Heq at 2. apply substring_split. lia.
  - intros [p ->]. rewrite string_length_append.
    replace (String.length p + String.length suffix - String.length suffix)%nat
      with (String.length p) by lia.
    rewrite substring_append_r, String.eqb_refl, andb_true_r.
    apply Nat.leb_le. lia.
Qed.

(** X12.  The hasher takes the gzip branch, and logs that it does,
    exactly for the names that are some string followed by [.gz], in
    lower case and with nothing after it; for every other name it logs
    nothing and hashes the bytes as they are. *)
Theorem gzip_branch_iff_suffix (L : Lib) (name : string) (b : bytes) :
  (exists p, name = (p ++ ".gz")%string) <->
  In (EvLog Info "gzipped content detected") (fst (hashGenerator L name b)).
Proof.
  rewrite <- HasSuffix_iff. split.
  - intros H.
    destruct (gzip_NewReader L b) as [gz | e] eqn:Hg.
    + rewrite (hashGenerator_gz_stream L name b gz H Hg). left. reflexivity.
    + rewrite (hashGenerator_gz_header L name b e H Hg). left. reflexivity.
  - intros H. destruct (HasSuffix name ".gz") eqn:Hs; [reflexivity |].
    rewrite (hashGenerator_plain L name b Hs) in H. contradiction.
Qed.

Lemma gzip_branch_iff_suffix_witness :
  In (EvLog Info "gzipped content detected")
     (fst (hashGenerator RefLib "release.tar.gz" Test.hello)) /\
  ~ In (EvLog Info "gzipped content detected")
       (fst (hashGenerator RefLib "release.tar.GZ" Test.hello)).
Proof.
  split.
  - apply (proj1 (gzip_branch_iff_suffix RefLib "release.tar.gz"
                    Test.hello)).
    exists "release.tar". reflexivity.
  - intros H.
    apply (proj2 (gzip_branch_iff_suffix RefLib "release.tar.GZ"
                    Test.hello)) in H.
    apply HasSuffix_iff in H. vm_compute in H. discriminate H.
Defined.

(** ** The hasher on a bad gzip header *)

(** X2.  For a name with the gzip suffix and bytes whose gzip header is
    rejected, the hasher logs the error and then crashes on the nil
    reader; it returns no digest. *)
Theorem bad_gzip_header_crashes :
  forall (L : Lib) (name : string) (z : bytes) (err : error),
    HasSuffix name ".gz" = true ->
    gzip_NewReader L z = Err err ->
    hashGenerator L name z =
      ([EvLog Info "gzipped content detected"; EvLog Error ("Error:" ++ err)],
       Panic "invalid memory address or nil pointer dereference") /\
    exit_status (snd (hashGenerator L name z)) = 2.
Proof.
  intros L name z err Hs Hg.
  rewrite (hashGenerator_gz_header L name z err Hs Hg). split; reflexivity.
Qed.

Lemma bad_gzip_header_crashes_witness :
  hashGenerator RefLib "artifact.gz" Test.hello =
    ([EvLog Info "gzipped content detected";
      EvLog Error ("Error:" ++ Gzip.io_ErrUnexpectedEOF)],
     Panic "invalid memory address or nil pointer dereference") /\
  exit_status (snd (hashGenerator RefLib "artifact.gz" Test.hello)) = 2.
Proof.
  apply (bad_gzip_header_crashes RefLib "artifact.gz" Test.hello
           Gzip.io_ErrUnexpectedEOF);
    vm_compute; reflexivity.
Defined.

(** ** The run as a whole *)

Section Whole.

Variable L : Lib.

(** The three ways a run goes: it ends in [prepare]; it reaches the
    signature check and the check fails; or the check passes and the run
    goes on to [build] and [submit]. *)
Lemma Run_cases (w : World) :
  (exists t1, prepare L w = (t1, snd (prepare L w)) /\
     (forall l, snd (prepare L w) <> Ret l) /\
     fst (Run L w) = t1 /\ forallb quiet t1 = true /\
     exit_status (snd (Run L w)) = exit_status (snd (prepare L w))) \/
  (exists l t1 t2 t3 pubH sigH keyRing,
     prepare L w = (t1, Ret l) /\
     load_keyring L (pubkeyRingReader l) = (t2, Ret (pubH, keyRing)) /\
     forallb quiet (t1 ++ t2 ++ t3) = true /\
     ((exists err,
         check_signature L keyRing (readBody l) (sigkeyRingReader l) =
           (t3, Ret (sigH, Some err)) /\
         Run L w =
           (t1 ++ t2 ++ t3
               ++ [EvLog Error ("Signature Verification failed: " ++ err)],
            Exit 1)) \/
      (check_signature L keyRing (readBody l) (sigkeyRingReader l) =
         (t3, Ret (sigH, None)) /\
       Run L w =
         (t1 ++ t2 ++ (t3 ++ [EvLog Info "Signature validation passed"]) ++
            fst (marshalledRekorEntry <- build L w l sigH pubH ;;
                 submit L w (url l) marshalledRekorEntry),
          snd (marshalledRekorEntry <- build L w l sigH pubH ;;
               submit L w (url l) marshalledRekorEntry))))).
Proof.
  pose proof (prepare_quiet L w) as Q1.
  destruct (prepare L w) as [t1 [l | c | msg]] eqn:Hp; cbn [fst] in Q1.
  2,3: left; exists t1; unfold Run; rewrite Hp; cbn [bind fst snd];
       repeat split; try assumption; intros l; discriminate.
  right.
  destruct (load_keyring_returns L (pubkeyRingReader l))
    as (t2 & pubH & keyRing & Hk & Q2).
  destruct (check_signature_returns L keyRing (readBody l)
              (sigkeyRingReader l)) as (t3 & sigH & err & Hc & Q3).
  exists l, t1, t2, t3, pubH, sigH, keyRing.
  split; [reflexivity |]. split; [exact Hk |].
  split; [now rewrite !forallb_app, Q1, Q2, Q3 |].
  destruct err as [err |].
  - left. exists err. split; [exact Hc |].
    apply (Run_check_failure L w l t1 t2 t3 pubH sigH keyRing err Hp Hk Hc).
  - right. split; [exact Hc |].
    rewrite (Run_stages L w l t1 t2 pubH keyRing Hp Hk).
    rewrite (verify_success L _ _ _ _ _ Hc), bind_Ret. reflexivity.
Qed.

Lemma quiet_no_entry_event (tr : list Event) :
  forallb quiet tr = true ->
  existsb (fun e => is_post e || is_marshal e) tr = false.
Proof.
  induction tr as [| e tr IH]; [reflexivity |].
  cbn [forallb existsb]. intros H. apply andb_true_iff in H as [He Ht].
  rewrite (IH Ht). unfold quiet in He.
  destruct (is_post e || is_marshal e); [discriminate He | reflexivity].
Qed.


End Whole.

(** X1.  The trust boundary.  In every run whose trace holds the
    serialization of an entry or a request to the log server, the
    detached-signature check was reached and returned no error. *)
Theorem entry_only_after_passed_check :
  forall (L : Lib) (w : World),
    existsb (fun e => is_post e || is_marshal e) (fst (Run L w)) = true ->
    exists l t1 t2 t3 pubH sigH keyRing,
      prepare L w = (t1, Ret l) /\
      load_keyring L (pubkeyRingReader l) = (t2, Ret (pubH, keyRing)) /\
      check_signature L keyRing (readBody l) (sigkeyRingReader l) =
        (t3, Ret (sigH, None)).
Proof.
  intros L w H.
  destruct (Run_cases L w)
    as [(t1 & _ & _ & Ht & Q & _)
       | (l & t1 & t2 & t3 & pubH & sigH & keyRing & Hp & Hk & Q & Hcase)].
  - rewrite Ht, (quiet_no_entry_event _ Q) in H. discriminate H.
  - destruct Hcase as [(err & Hc & Hrun) | (Hc & _)].
    + rewrite Hrun in H. cbn [fst] in H.
      rewrite !app_assoc, existsb_app in H.
      rewrite <- !app_assoc, (quiet_no_entry_event _ Q) in H.
      discriminate H.
    + now exists l, t1, t2, t3, pubH, sigH, keyRing.
Qed.

Lemma entry_only_after_passed_check_witness :
  exists l t1 t2 t3 pubH sigH keyRing,
    prepare RefLib Test.world_A = (t1, Ret l) /\
    load_keyring RefLib (pubkeyRingReader l) = (t2, Ret (pubH, keyRing)) /\
    check_signature RefLib keyRing (readBody l) (sigkeyRingReader l) =
      (t3, Ret (sigH, None)).
Proof.
  apply (entry_only_after_passed_check RefLib Test.world_A).
  vm_compute. reflexivity.
Defined.

(** ** Failures before the signature check *)

(** X4.  A format check that fails is fatal before anything is
    downloaded: the run logs the error and exits with status 1, and its
    trace holds no request at all. *)
Theorem format_failure_is_fatal_before_download :
  forall (L : Lib) (w : World) (err : error),
    (pkg_FormatSignature w (viper_GetString w "signature") = Err err ->
     Run L w =
       ([EvLog Fatal ("Signature validation failed: " ++ err)], Exit 1)) /\
    (forall s,
        pkg_FormatSignature w (viper_GetString w "signature") = Ok s ->
        pkg_FormatPubKey w (viper_GetString w "public-key") = Err err ->
        Run L w =
          ([EvLog Fatal ("Public key validation failed: " ++ err)], Exit 1)).
Proof.
  intros L w err. split.
  - intros H. unfold Run, prepare. rewrite H. reflexivity.
  - intros s Hs H. unfold Run, prepare. rewrite Hs, H. reflexivity.
Qed.

Lemma format_failure_is_fatal_before_download_witness :
  Run RefLib (Test.world [] (None, None) Test.accepted) =
    ([EvLog Fatal ("Signature validation failed: " ++ Test.ENOENT)], Exit 1)
  /\
  Run RefLib (Test.world [(Test.sig_path, (Test.good_sig, true))]
                (None, None) Test.accepted) =
    ([EvLog Fatal ("Public key validation failed: " ++ Test.ENOENT)], Exit 1).
Proof.
  destruct (format_failure_is_fatal_before_download RefLib
              (Test.world [] (None, None) Test.accepted) Test.ENOENT)
    as [H1 _].
  destruct (format_failure_is_fatal_before_download RefLib
              (Test.world [(Test.sig_path, (Test.good_sig, true))]
                 (None, None) Test.accepted) Test.ENOENT)
    as [_ H2].
  split.
  - apply H1. reflexivity.
  - apply (H2 (string_of_list_byte Test.good_sig)); reflexivity.
Defined.

(** X3.  When the GET returns no response, the error is logged and the
    run crashes on the nil response at [defer resp.Body.Close()], before
    the body is read or anything is hashed: exit status 2, and neither
    hasher nor file is touched. *)
Theorem fetch_without_response_crashes :
  forall (L : Lib) (w : World) (s p : string) (err : option error),
    pkg_FormatSignature w (viper_GetString w "signature") = Ok s ->
    pkg_FormatPubKey w (viper_GetString w "public-key") = Ok p ->
    http_Get w (viper_GetString w "artifact-url") = (None, err) ->
    Run L w =
      (EvLog Info "Download artifact.." ::
       EvHttpGet (viper_GetString w "artifact-url") ::
       match err with
       | Some e => [EvLog Error e]
       | None => []
       end,
       Panic "invalid memory address or nil pointer dereference") /\
    exit_status (snd (Run L w)) = 2.
Proof.
  intros L w s p err Hs Hk Hg.
  assert (H : Run L w =
      (EvLog Info "Download artifact.." ::
       EvHttpGet (viper_GetString w "artifact-url") ::
       match err with
       | Some e => [EvLog Error e]
       | None => []
       end,
       Panic "invalid memory address or nil pointer dereference")).
  { unfold Run, prepare. rewrite Hs, Hk, Hg. destruct err; reflexivity. }
  rewrite H. split; reflexivity.
Qed.

Lemma fetch_without_response_crashes_witness :
  Run RefLib Test.world_unreachable =
    ([EvLog Info "Download artifact.."; EvHttpGet Test.artifact;
      EvLog Error "dial tcp: connection refused"],
     Panic "invalid memory address or nil pointer dereference") /\
  exit_status (snd (Run RefLib Test.world_unreachable)) = 2.
Proof.
  apply (fetch_without_response_crashes RefLib Test.world_unreachable
           (string_of_list_byte Test.good_sig)
           (string_of_list_byte Test.key)
           (Some "dial tcp: connection refused"));
    reflexivity.
Defined.

(** ** The entry *)

(** X5.  What [build] serializes.  It sends nothing and serializes at
    most one entry.  The entry is the armored one, with the two formatted
    texts, exactly when a new probe of the signature handle, or else of
    the key handle, finds an armor block from the offset the earlier
    readers left the handle at; otherwise it is the raw one, with the
    bytes [ioutil.ReadFile] gives for the two paths. *)
Theorem build_entry_follows_new_probe :
  forall (L : Lib) (w : World) (l : Locals) (sigH pubH : Handle) (e : Entry),
    In (EvMarshal e) (fst (build L w l sigH pubH)) ->
    filter is_post (fst (build L w l sigH pubH)) = [] /\
    filter is_marshal (fst (build L w l sigH pubH)) = [EvMarshal e] /\
    is_armor_entry e = decodes L sigH || decodes L pubH /\
    (is_armor_entry e = true ->
     e = RekorArmorEntry (generatedSha l) (artifactURL l) (sig l)
           (pub_key l)) /\
    (is_armor_entry e = false ->
     exists sigKey pubKey,
       ioutil_ReadFile w (signature l) = Ok sigKey /\
       ioutil_ReadFile w (publicKey l) = Ok pubKey /\
       e = RekorEntry (generatedSha l) (artifactURL l) sigKey pubKey).
Proof.
  intros L w l sigH pubH e Hin.
  destruct (build_marshals L w l sigH pubH) as (Hpost & Hm & _).
  assert (Hf : In (EvMarshal e)
                 (filter is_marshal (fst (build L w l sigH pubH)))).
  { apply filter_In. split; [exact Hin | reflexivity]. }
  destruct Hm as [Hnone | (sigKey & pubKey & Hone & Hfiles)].
  { rewrite Hnone in Hf. contradiction. }
  rewrite Hone in Hf. destruct Hf as [Heq | []].
  apply (f_equal (fun ev => match ev with EvMarshal x => x | _ => e end))
    in Heq.
  subst e. split; [exact Hpost |]. split; [exact Hone |].
  unfold entry_of in *.
  destruct (decodes L sigH || decodes L pubH); cbn [is_armor_entry].
  - split; [reflexivity |].
    split; [intros _; reflexivity | intros H; discriminate H].
  - destruct (Hfiles eq_refl) as [Hpk Hsk].
    split; [reflexivity |].
    split; [intros H; discriminate H |].
    intros _. now exists sigKey, pubKey.
Qed.

Lemma build_entry_follows_new_probe_witness :
  let l := mkLocals "http://rekor.example/api/v1/add" Test.sig_path
             Test.key_path Test.artifact "sig-text" "key-text" Test.hello
             "digest" None None in
  let e := RekorArmorEntry "digest" Test.artifact "sig-text" "key-text" in
  let sigH := Some (mkFile Test.armored_sig 0 true) in
  let b := build RefLib Test.world_armored l sigH None in
  filter is_post (fst b) = [] /\
  filter is_marshal (fst b) = [EvMarshal e] /\
  is_armor_entry e = decodes RefLib sigH || decodes RefLib None /\
  (is_armor_entry e = true ->
   e = RekorArmorEntry (generatedSha l) (artifactURL l) (sig l)
         (pub_key l)) /\
  (is_armor_entry e = false ->
   exists sigKey pubKey,
     ioutil_ReadFile Test.world_armored (signature l) = Ok sigKey /\
     ioutil_ReadFile Test.world_armored (publicKey l) = Ok pubKey /\
     e = RekorEntry (generatedSha l) (artifactURL l) sigKey pubKey).
Proof.
  intros l e sigH b.
  apply (build_entry_follows_new_probe RefLib Test.world_armored l sigH
           None e).
  vm_compute. left. reflexivity.
Defined.




(** ** How a run ends *)

Lemma bind_orderly {A B} (m : M A) (k : A -> M B) :
  orderly (snd m) ->
  (forall a, snd m = Ret a -> orderly (snd (k a))) ->
  orderly (snd (bind m k)).
Proof.
  destruct m as [t [a | c | msg]]; cbn [snd]; intros Hm Hk.
  - specialize (Hk a eq_refl). unfold bind. destruct (k a). exact Hk.
  - exact Hm.
  - exact Hm.
Qed.

Ltac orderly_step :=
  match goal with
  | |- orderly (snd (bind _ _)) => apply bind_orderly; [| intros ? _]
  | |- orderly (snd (match ?x with _ => _ end)) => destruct x
  | |- orderly (snd (if ?b then _ else _)) => destruct b
  | |- orderly (snd _) => exact I || reflexivity
  end.

Lemma bind_emit {B} (e : Event) (k : unit -> M B) :
  fst (bind (emit e) k) = e :: fst (k tt).
Proof. unfold emit, bind. destruct (k tt); reflexivity. Qed.

Lemma filter_none {A} (p : A -> bool) (l : list A) :
  forallb (fun x => negb (p x)) l = true -> filter p l = [].
Proof.
  induction l as [| x l IH]; [reflexivity |].
  cbn [forallb filter]. intros H. apply andb_true_iff in H as [Hx Hl].
  destruct (p x); [discriminate Hx | exact (IH Hl)].
Qed.

Section Endings.

Variable L : Lib.

Lemma isArmorProtected_orderly (f : Handle) :
  orderly (snd (isArmorProtected L f)).
Proof.
  destruct (isArmorProtected_returns L f) as (tr & f' & -> & _). exact I.
Qed.

Lemma load_keyring_orderly (f : Handle) : orderly (snd (load_keyring L f)).
Proof.
  destruct (load_keyring_returns L f) as (tr & f' & k & -> & _). exact I.
Qed.

Lemma verify_orderly (keyRing : EntityList L) (body : bytes) (f : Handle) :
  orderly (snd (verify L keyRing body f)).
Proof.
  destruct (check_signature_returns L keyRing body f)
    as (tr & f' & [err |] & Hc & _).
  - rewrite (verify_failure L _ _ _ _ _ _ Hc). reflexivity.
  - rewrite (verify_success L _ _ _ _ _ Hc). exact I.
Qed.

Lemma build_orderly (w : World) (l : Locals) (sigH pubH : Handle) :
  orderly (snd (build L w l sigH pubH)).
Proof.
  unfold build, marshal.
  repeat (orderly_step || apply isArmorProtected_orderly).
Qed.

Lemma submit_orderly (w : World) (url : string) (entry : bytes) :
  orderly (snd (submit L w url entry)).
Proof. unfold submit. repeat orderly_step. Qed.

(** [hashGenerator] never exits; it crashes exactly on a [.gz] name
    whose bytes the gzip reader refuses at the header. *)
Lemma hashGenerator_ending (artifact : string) (fileObject : bytes) :
  match snd (hashGenerator L artifact fileObject) with
  | Ret _ => True
  | Exit _ => False
  | Panic _ =>
      HasSuffix artifact ".gz" = true /\
      exists e, gzip_NewReader L fileObject = Err e
  end.
Proof.
  unfold hashGenerator, io_Copy.
  destruct (HasSuffix artifact ".gz"); [| exact I].
  destruct (gzip_NewReader L fileObject) as [gz | e].
  - step_cbn. destruct (gz_err gz); exact I.
  - split; [reflexivity | now exists e].
Qed.

Lemma prepare_ending (w : World) :
  match snd (prepare L w) with
  | Ret _ => True
  | Exit c => c = 1
  | Panic _ =>
      fst (http_Get w (viper_GetString w "artifact-url")) = None \/
      exists resp e,
        fst (http_Get w (viper_GetString w "artifact-url")) = Some resp /\
        HasSuffix (viper_GetString w "artifact-url") ".gz" = true /\
        gzip_NewReader L (Body resp) = Err e
  end.
Proof.
  unfold prepare.
  destruct (pkg_FormatSignature w _) as [s | e]; [| reflexivity].
  destruct (pkg_FormatPubKey w _) as [p | e]; [| reflexivity].
  destruct (http_Get w _) as [[resp |] getErr].
  2:{ destruct getErr; left; reflexivity. }
  pose proof (hashGenerator_ending (viper_GetString w "artifact-url")
                (Body resp)) as Hh.
  step_cbn.
  destruct getErr; step_cbn; destruct (BodyErr resp); step_cbn;
    destruct (hashGenerator L _ (Body resp)) as [th [sha | c | msg]];
    cbn [snd] in Hh; step_cbn;
    try contradiction;
    try (destruct Hh as (Hgz & gzErr & He); right; exists resp, gzErr;
         cbn [fst]; repeat split; assumption);
    destruct (os_Open w (viper_GetString w "public-key")),
      (os_Open w (viper_GetString w "signature")); exact I.
Qed.

Lemma hashGenerator_no_get (artifact : string) (fileObject : bytes) :
  forallb not_get (fst (hashGenerator L artifact fileObject)) = true.
Proof. unfold hashGenerator, io_Copy. repeat trace_step. Qed.

Lemma isArmorProtected_no_get (f : Handle) :
  forallb not_get (fst (isArmorProtected L f)) = true.
Proof. unfold isArmorProtected. repeat trace_step. Qed.

Lemma load_keyring_no_get (f : Handle) :
  forallb not_get (fst (load_keyring L f)) = true.
Proof.
  unfold load_keyring.
  repeat (trace_step || apply isArmorProtected_no_get).
Qed.

Lemma verify_no_get (keyRing : EntityList L) (body : bytes) (f : Handle) :
  forallb not_get (fst (verify L keyRing body f)) = true.
Proof.
  unfold verify, check_signature.
  repeat (trace_step || apply isArmorProtected_no_get).
Qed.

Lemma build_no_get (w : World) (l : Locals) (sigH pubH : Handle) :
  forallb not_get (fst (build L w l sigH pubH)) = true.
Proof.
  unfold build, marshal.
  repeat (trace_step || apply isArmorProtected_no_get).
Qed.

Lemma submit_no_get (w : World) (url : string) (entry : bytes) :
  forallb not_get (fst (submit L w url entry)) = true.
Proof. unfold submit. repeat trace_step. Qed.

Lemma prepare_gets (w : World) :
  filter is_get (fst (prepare L w)) =
  match pkg_FormatSignature w (viper_GetString w "signature"),
        pkg_FormatPubKey w (viper_GetString w "public-key") with
  | Ok _, Ok _ => [EvHttpGet (viper_GetString w "artifact-url")]
  | _, _ => []
  end.
Proof.
  unfold prepare.
  destruct (pkg_FormatSignature w _) as [s | e]; [| reflexivity].
  destruct (pkg_FormatPubKey w _) as [p | e]; [| reflexivity].
  rewrite bind_ret_l, bind_ret_l.
  unfold log_Info at 1. rewrite !bind_emit. cbn [filter is_get].
  f_equal. apply filter_none.
  change (fun x => negb (is_get x)) with not_get.
  repeat (trace_step || apply hashGenerator_no_get).
Qed.

End Endings.

(** X9.  How a run can end.  Whatever the libraries and the world
    answer, [Run] returns, or exits with status 1, or crashes on a nil
    pointer; it crashes only when the GET gave no response, or when the
    artifact URL ends in [.gz] and the gzip reader refused the header of
    the body.  So the exit status is 0, 1 or 2. *)
Theorem run_returns_exits_1_or_crashes :
  forall (L : Lib) (w : World),
    match snd (Run L w) with
    | Ret _ => True
    | Exit c => c = 1
    | Panic _ =>
        fst (http_Get w (viper_GetString w "artifact-url")) = None \/
        exists resp e,
          fst (http_Get w (viper_GetString w "artifact-url")) = Some resp /\
          HasSuffix (viper_GetString w "artifact-url") ".gz" = true /\
          gzip_NewReader L (Body resp) = Err e
    end /\
    (exit_status (snd (Run L w)) = 0 \/
     exit_status (snd (Run L w)) = 1 \/
     exit_status (snd (Run L w)) = 2).
Proof.
  intros L w.
  assert (Hrest : forall l,
    orderly (snd ('(pubH, keyRing) <- load_keyring L (pubkeyRingReader l) ;;
                  sigH <- verify L keyRing (readBody l)
                            (sigkeyRingReader l) ;;
                  marshalledRekorEntry <- build L w l sigH pubH ;;
                  submit L w (url l) marshalledRekorEntry))).
  { intros l. apply bind_orderly; [apply load_keyring_orderly |].
    intros [pubH keyRing] _.
    apply bind_orderly; [apply verify_orderly |]. intros sigH _.
    apply bind_orderly; [apply build_orderly |]. intros m _.
    apply submit_orderly. }
  pose proof (prepare_ending L w) as Hp.
  unfold Run.
  destruct (prepare L w) as [t1 [l | c | msg]]; cbn [snd] in Hp.
  - specialize (Hrest l). rewrite bind_Ret. cbn [snd].
    destruct (snd _) as [u | c | msg]; cbn [orderly] in Hrest.
    + split; [exact I | left; reflexivity].
    + split; [exact Hrest | right; left; exact Hrest].
    + contradiction.
  - cbn [bind snd]. split; [exact Hp | right; left; exact Hp].
  - cbn [bind snd]. split; [exact Hp | right; right; reflexivity].
Qed.

(** X10.  One download.  A run sends exactly one GET, to the configured
    artifact URL, once both format checks have passed, and none
    otherwise; no later stage, whatever happens in it, sends another. *)
Theorem run_downloads_once :
  forall (L : Lib) (w : World),
    filter is_get (fst (Run L w)) =
    match pkg_FormatSignature w (viper_GetString w "signature"),
          pkg_FormatPubKey w (viper_GetString w "public-key") with
    | Ok _, Ok _ => [EvHttpGet (viper_GetString w "artifact-url")]
    | _, _ => []
    end.
Proof.
  intros L w. unfold Run. rewrite bind_trace, filter_app, prepare_gets.
  rewrite (filter_none is_get
             (match snd (prepare L w) with Ret a => _ | _ => [] end)).
  - apply app_nil_r.
  - change (fun x => negb (is_get x)) with not_get.
    destruct (snd (prepare L w)) as [l | c | msg]; [| reflexivity ..].
    apply bind_forallb; [apply load_keyring_no_get |].
    intros [pubH keyRing] _.
    apply bind_forallb; [apply verify_no_get |]. intros sigH _.
    apply bind_forallb; [apply build_no_get |]. intros m _.
    apply submit_no_get.
Qed.

(** ** The last stage *)

Section Last.

Variable L : Lib.

(** [submit] returns only after the whole of it went well. *)
Lemma submit_returns (w : World) (url : string) (entry : bytes)
    (t : list Event) (u : unit) :
  submit L w url entry = (t, Ret u) ->
  exists resp leaf,
    http_NewRequest L "POST" url = None /\
    client_Do w url entry (180 * time_Second) = Ok resp /\
    BodyErr resp = None /\
    json_Unmarshal L (Body resp) = Ok leaf /\
    t = [EvLog Info "Uploading manifest to Rekor.";
         EvHttpPost url entry (180 * time_Second);
         EvLog Info ("Status: {" ++ Status_Code leaf ++ "}")].
Proof.
  unfold submit. intros H.
  destruct (http_NewRequest L "POST" url) as [e |];
    [apply (f_equal snd) in H; discriminate H |].
  destruct (client_Do w url entry (180 * time_Second)) as [resp | e];
    [| apply (f_equal snd) in H; discriminate H].
  step_cbn in H.
  destruct (BodyErr resp) as [e |] eqn:Hb;
    [apply (f_equal snd) in H; discriminate H |].
  step_cbn in H.
  destruct (json_Unmarshal L (Body resp)) as [leaf | e] eqn:Hj;
    [| apply (f_equal snd) in H; discriminate H].
  exists resp, leaf. apply (f_equal fst) in H. cbn [fst app] in H.
  repeat split; try reflexivity; try assumption. now symmetry.
Qed.

Lemma Run_orderly_after_prepare (w : World) (l : Locals) :
  orderly (snd ('(pubH, keyRing) <- load_keyring L (pubkeyRingReader l) ;;
                sigH <- verify L keyRing (readBody l)
                          (sigkeyRingReader l) ;;
                marshalledRekorEntry <- build L w l sigH pubH ;;
                submit L w (url l) marshalledRekorEntry)).
Proof.
  apply bind_orderly; [apply load_keyring_orderly |].
  intros [pubH keyRing] _.
  apply bind_orderly; [apply verify_orderly |]. intros sigH _.
  apply bind_orderly; [apply build_orderly |]. intros m _.
  apply submit_orderly.
Qed.

(** A run whose exit status is 0 has returned. *)
Lemma Run_status_0 (w : World) :
  exit_status (snd (Run L w)) = 0 -> snd (Run L w) = Ret tt.
Proof.
  pose proof (prepare_ending L w) as Hp. unfold Run.
  destruct (prepare L w) as [t1 [l | c | msg]]; cbn [snd] in Hp.
  - pose proof (Run_orderly_after_prepare w l) as Hrest.
    rewrite bind_Ret. cbn [snd].
    destruct (snd _) as [[] | c | msg]; cbn [orderly exit_status] in *.
    + reflexivity.
    + intros H. rewrite Hrest in H. discriminate H.
    + contradiction.
  - cbn [bind snd exit_status]. intros H. rewrite Hp in H. discriminate H.
  - cbn [bind snd exit_status]. intros H. discriminate H.
Qed.

End Last.

(** X8.  What exit status 0 means.  A run that ends with status 0 has
    passed the signature check, serialized one entry, sent the bytes
    [json.Marshal] gave for it in one POST to
    [<rekor_server>/api/v1/add], received a response whose body could be
    read and parsed, and logged the status of that response as its last
    line.  The HTTP status code of the response plays no part. *)
Theorem status_0_means_submitted :
  forall (L : Lib) (w : World),
    exit_status (snd (Run L w)) = 0 ->
    exists e body resp leaf tr,
      json_Marshal L e = Ok body /\
      client_Do w (viper_GetString w "rekor_server" ++ "/api/v1/add")%string
        body (180 * time_Second) = Ok resp /\
      BodyErr resp = None /\
      json_Unmarshal L (Body resp) = Ok leaf /\
      In (EvMarshal e) tr /\
      In (EvLog Info "Signature validation passed") tr /\
      fst (Run L w) =
        tr ++ [EvLog Info "Uploading manifest to Rekor.";
               EvHttpPost
                 (viper_GetString w "rekor_server" ++ "/api/v1/add")%string
                 body (180 * time_Second);
               EvLog Info ("Status: {" ++ Status_Code leaf ++ "}")].
Proof.
  intros L w H0. apply Run_status_0 in H0.
  destruct (Run_cases L w)
    as [(t1 & _ & Hne & _ & _ & Hst)
       | (l & t1 & t2 & t3 & pubH & sigH & keyRing & Hp & Hk & Q & Hcase)].
  { exfalso. rewrite H0 in Hst. cbn [exit_status] in Hst.
    pose proof (prepare_ending L w) as Hp.
    destruct (snd (prepare L w)) as [l | c | msg]; cbn [exit_status] in Hst.
    - exact (Hne l eq_refl).
    - rewrite Hp in Hst. discriminate Hst.
    - discriminate Hst. }
  destruct Hcase as [(err & _ & Hrun) | (Hc & Hrun)].
  { rewrite Hrun in H0. discriminate H0. }
  destruct (prepare_returns L w t1 l Hp) as (Hurl & _).
  destruct (build_marshals L w l sigH pubH) as (_ & _ & Bret).
  rewrite Hrun in *. cbn [fst snd] in *.
  destruct (build L w l sigH pubH) as [tb [m | c | msg]] eqn:Hb;
    [| discriminate H0 | discriminate H0].
  destruct (Bret tb m eq_refl) as (e & Hin & Hm).
  rewrite bind_Ret in H0 |- *. cbn [fst snd] in H0 |- *.
  destruct (submit L w (url l) m) as [ts o] eqn:Hsub. cbn [fst snd] in *.
  subst o.
  destruct (submit_returns L w (url l) m ts tt Hsub)
    as (resp & leaf & _ & Hdo & Hbody & Hj & ->).
  rewrite Hurl in *.
  exists e, m, resp, leaf,
    (t1 ++ t2 ++ (t3 ++ [EvLog Info "Signature validation passed"]) ++ tb).
  repeat split; try assumption.
  - repeat (apply in_or_app; right). exact Hin.
  - apply in_or_app. right. apply in_or_app. right.
    apply in_or_app. left. apply in_or_app. right. left. reflexivity.
  - now rewrite <- !app_assoc.
Qed.

Lemma status_0_means_submitted_witness :
  exists e body resp leaf tr,
    json_Marshal RefLib e = Ok body /\
    client_Do Test.world_A
      (viper_GetString Test.world_A "rekor_server" ++ "/api/v1/add")%string
      body (180 * time_Second) = Ok resp /\
    BodyErr resp = None /\
    json_Unmarshal RefLib (Body resp) = Ok leaf /\
    In (EvMarshal e) tr /\
    In (EvLog Info "Signature validation passed") tr /\
    fst (Run RefLib Test.world_A) =
      tr ++ [EvLog Info "Uploading manifest to Rekor.";
             EvHttpPost
               (viper_GetString Test.world_A "rekor_server"
                  ++ "/api/v1/add")%string
               body (180 * time_Second);
             EvLog Info ("Status: {" ++ Status_Code leaf ++ "}")].
Proof.
  apply (status_0_means_submitted RefLib Test.world_A).
  vm_compute. reflexivity.
Defined.

(** X7.  A response that cannot be used.  After the POST was answered, a
    body that cannot be read, or that [json.Unmarshal] rejects, is fatal:
    the error is logged and the process exits with status 1, the entry
    having been sent. *)
Theorem unusable_response_is_fatal :
  forall (L : Lib) (w : World) (url : string) (entry : bytes)
         (resp : Response) (err : error),
    http_NewRequest L "POST" url = None ->
    client_Do w url entry (180 * time_Second) = Ok resp ->
    BodyErr resp = Some err \/
    (BodyErr resp = None /\ json_Unmarshal L (Body resp) = Err err) ->
    submit L w url entry =
      ([EvLog Info "Uploading manifest to Rekor.";
        EvHttpPost url entry (180 * time_Second);
        EvLog Fatal err], Exit 1).
Proof.
  intros L w url entry resp err Hreq Hdo [Hb | [Hb Hj]];
    unfold submit; rewrite Hreq, Hdo; step_cbn; rewrite Hb; step_cbn.
  - reflexivity.
  - rewrite Hj. reflexivity.
Qed.

Lemma unusable_response_is_fatal_witness :
  submit RefLib (Test.world [] (None, None) (Ok (mkResp 502 [] None)))
    Test.server (bytes_of_string "{}") =
    ([EvLog Info "Uploading manifest to Rekor.";
      EvHttpPost Test.server (bytes_of_string "{}") (180 * time_Second);
      EvLog Fatal "unexpected end of JSON input"], Exit 1).
Proof.
  apply (unusable_response_is_fatal RefLib
           (Test.world [] (None, None) (Ok (mkResp 502 [] None)))
           Test.server (bytes_of_string "{}") (mkResp 502 [] None)
           "unexpected end of JSON input").
  - reflexivity.
  - reflexivity.
  - right. split; reflexivity.
Defined.

(** ** The probe and the readers *)

(** X11.  The probe answers for what lies after the read offset, not for
    the file: with the framing scan of the armor library, a handle at or
    past the end of its file is answered [false], and so is a nil handle,
    whatever the file holds. *)
Theorem probe_at_end_of_file_says_binary :
  forall (L : Lib) (f : File),
    armor_Decode L = Armor.Decode ->
    (List.length (data f) <= offset f)%nat ->
    decodes L (Some f) = false /\
    decodes L None = false /\
    exists tr h, isArmorProtected L (Some f) = (tr, Ret (h, false)).
Proof.
  intros L f HL Hoff.
  assert (Hd : decodes L (Some f) = false).
  { unfold decodes. rewrite HL. cbn [source_of].
    rewrite skipn_all2 by exact Hoff. reflexivity. }
  split; [exact Hd |].
  split; [unfold decodes; rewrite HL; reflexivity |].
  destruct (isArmorProtected_returns L (Some f)) as (tr & h & Hr & _).
  exists tr, h. now rewrite Hr, Hd.
Qed.

Lemma probe_at_end_of_file_says_binary_witness :
  let f := mkFile Test.armored_sig (List.length Test.armored_sig) true in
  decodes RefLib (Some f) = false /\
  decodes RefLib None = false /\
  exists tr h, isArmorProtected RefLib (Some f) = (tr, Ret (h, false)).
Proof.
  intros f. apply (probe_at_end_of_file_says_binary RefLib f).
  - reflexivity.
  - cbn [f data offset]. lia.
Defined.

(** X15.  After readers that took the two files to their ends, or with
    nil handles, the entry is always the raw one: with the framing scan
    of the armor library, every entry [build] serializes then holds the
    bytes [ioutil.ReadFile] gives for the two paths, whatever the files
    contain, armored or not. *)
Theorem build_after_full_reads_is_raw :
  forall (L : Lib) (w : World) (l : Locals) (sigH pubH : Handle) (e : Entry),
    armor_Decode L = Armor.Decode ->
    at_end sigH -> at_end pubH ->
    In (EvMarshal e) (fst (build L w l sigH pubH)) ->
    is_armor_entry e = false /\
    exists sigKey pubKey,
      ioutil_ReadFile w (signature l) = Ok sigKey /\
      ioutil_ReadFile w (publicKey l) = Ok pubKey /\
      e = RekorEntry (generatedSha l) (artifactURL l) sigKey pubKey.
Proof.
  intros L w l sigH pubH e HL Hs Hp Hin.
  assert (Hend : forall h, at_end h -> decodes L h = false).
  { intros [f |] Hh; unfold decodes; rewrite HL; cbn [source_of].
    - rewrite skipn_all2 by exact Hh. reflexivity.
    - reflexivity. }
  destruct (build_marshals L w l sigH pubH) as (_ & Hm & _).
  assert (Hf : In (EvMarshal e)
                 (filter is_marshal (fst (build L w l sigH pubH)))).
  { apply filter_In. split; [exact Hin | reflexivity]. }
  destruct Hm as [Hnone | (sigKey & pubKey & Hone & Hfiles)].
  { rewrite Hnone in Hf. contradiction. }
  rewrite Hone in Hf. destruct Hf as [Heq | []].
  apply (f_equal (fun ev => match ev with EvMarshal x => x | _ => e end))
    in Heq.
  rewrite (Hend _ Hs), (Hend _ Hp) in Heq, Hfiles.
  destruct (Hfiles eq_refl) as [Hpk Hsk].
  subst e. split; [reflexivity |]. now exists sigKey, pubKey.
Qed.

Lemma build_after_full_reads_is_raw_witness :
  let l := mkLocals "http://rekor.example/api/v1/add" Test.sig_path
             Test.key_path Test.artifact "sig-text" "key-text" Test.hello
             "digest" None None in
  let e := RekorEntry "digest" Test.artifact Test.armored_sig Test.key in
  is_armor_entry e = false /\
  exists sigKey pubKey,
    ioutil_ReadFile Test.world_armored (signature l) = Ok sigKey /\
    ioutil_ReadFile Test.world_armored (publicKey l) = Ok pubKey /\
    e = RekorEntry (generatedSha l) (artifactURL l) sigKey pubKey.
Proof.
  intros l e.
  apply (build_after_full_reads_is_raw RefLib Test.world_armored l
           (Some (mkFile Test.armored_sig
                    (List.length Test.armored_sig) true))
           None e).
  - reflexivity.
  - cbn [at_end data offset]. lia.
  - exact I.
  - vm_compute. right. left. reflexivity.
Defined.

(** X13.  On files that can seek, the key ring reader and the signature
    check are each given the whole file from its first byte, though the
    probe has read from it, and the check is given the whole body; the
    armored variant of each is used exactly when the probe of that file
    found an armor block, whatever the encoding of the other file. *)
Theorem readers_start_at_first_byte :
  forall (L : Lib) (keyRing : EntityList L) (body : bytes) (k f : File),
    seekable k = true ->
    seekable f = true ->
    snd (load_keyring L (Some k)) =
      (let '((keyRing', _), n) :=
         if decodes L (Some k)
         then openpgp_ReadArmoredKeyRing L (Bytes (data k))
         else openpgp_ReadKeyRing L (Bytes (data k)) in
       Ret (advance (Some (mkFile (data k) 0 true)) n, keyRing')) /\
    snd (check_signature L keyRing body (Some f)) =
      (let '(err, n) :=
         if decodes L (Some f)
         then openpgp_CheckArmoredDetachedSignature L keyRing body
                (Bytes (data f))
         else openpgp_CheckDetachedSignature L keyRing body
                (Bytes (data f)) in
       Ret (advance (Some (mkFile (data f) 0 true)) n, err)).
Proof.
  intros L keyRing body k f Hk Hs. split.
  - unfold load_keyring.
    rewrite (isArmorProtected_seekable L k Hk), bind_Ret.
    cbn [fst snd source_of offset data skipn].
    destruct (decodes L (Some k)).
    + destruct (openpgp_ReadArmoredKeyRing L (Bytes (data k)))
        as [[kr [e |]] n]; reflexivity.
    + destruct (openpgp_ReadKeyRing L (Bytes (data k)))
        as [[kr [e |]] n]; reflexivity.
  - unfold check_signature.
    rewrite (isArmorProtected_seekable L f Hs), bind_Ret.
    cbn [fst snd source_of offset data skipn].
    destruct (decodes L (Some f)).
    + destruct (openpgp_CheckArmoredDetachedSignature L keyRing body
                  (Bytes (data f))) as [[e |] n]; reflexivity.
    + destruct (openpgp_CheckDetachedSignature L keyRing body
                  (Bytes (data f))) as [[e |] n]; reflexivity.
Qed.

Lemma readers_start_at_first_byte_witness :
  let keyRing := fst (fst (ToyPGP.ReadKeyRing (Bytes Test.key))) in
  let k := mkFile Test.key 0 true in
  let f := mkFile Test.good_sig 0 true in
  snd (load_keyring RefLib (Some k)) =
    (let '((keyRing', _), n) :=
       if decodes RefLib (Some k)
       then openpgp_ReadArmoredKeyRing RefLib (Bytes (data k))
       else openpgp_ReadKeyRing RefLib (Bytes (data k)) in
     Ret (advance (Some (mkFile (data k) 0 true)) n, keyRing')) /\
  snd (check_signature RefLib keyRing Test.hello (Some f)) =
    (let '(err, n) :=
       if decodes RefLib (Some f)
       then openpgp_CheckArmoredDetachedSignature RefLib keyRing Test.hello
              (Bytes (data f))
       else openpgp_CheckDetachedSignature RefLib keyRing Test.hello
              (Bytes (data f)) in
     Ret (advance (Some (mkFile (data f) 0 true)) n, err)).
Proof.
  intros keyRing k f.
  apply (readers_start_at_first_byte RefLib keyRing Test.hello k f);
    reflexivity.
Defined.

(** X14.  A file that cannot be opened does not stop the run there: the
    error is logged and the run goes on with a nil handle, whose probe
    logs [invalid argument] for the seek and returns. *)
Theorem open_failure_is_logged_not_fatal :
  forall (L : Lib) (w : World) (s p : string) (resp : Response)
         (err : option error) (th : list Event) (sha : string) (e : error),
    pkg_FormatSignature w (viper_GetString w "signature") = Ok s ->
    pkg_FormatPubKey w (viper_GetString w "public-key") = Ok p ->
    http_Get w (viper_GetString w "artifact-url") = (Some resp, err) ->
    hashGenerator L (viper_GetString w "artifact-url") (Body resp)
      = (th, Ret sha) ->
    os_Open w (viper_GetString w "signature") = Err e ->
    exists t l,
      prepare L w = (t, Ret l) /\
      sigkeyRingReader l = None /\
      In (EvLog Error ("Error opening signature: " ++ e)) t /\
      isArmorProtected L (sigkeyRingReader l) =
        ([EvLog Error ("Error processing file:" ++ ErrInvalid)],
         Ret (None, decodes L None)).
Proof.
  intros L w s p resp err th sha e Hs Hk Hg Hh Ho.
  assert (Hprobe : isArmorProtected L None =
            ([EvLog Error ("Error processing file:" ++ ErrInvalid)],
             Ret (None, decodes L None))).
  { unfold isArmorProtected, decodes.
    destruct (armor_Decode L (source_of None)) as [[d |] n]; reflexivity. }
  unfold prepare. rewrite Hs, Hk, Hg, Ho. step_cbn.
  destruct err; step_cbn; destruct (BodyErr resp); step_cbn;
    rewrite Hh; step_cbn;
    destruct (os_Open w (viper_GetString w "public-key"));
    step_cbn; eexists; eexists;
    (split; [reflexivity |]);
    cbn [sigkeyRingReader];
    (split; [reflexivity |]);
    (split; [| exact Hprobe]);
    repeat first [left; reflexivity | apply in_or_app; right | right].
Qed.

Lemma open_failure_is_logged_not_fatal_witness :
  let w := mkWorld Test.config (fun _ => Ok "sig-text")
             (fun _ => Ok "key-text")
             (fun _ => (Some (mkResp 200 Test.hello None), None))
             (fun _ => Err Test.ENOENT) (fun _ => Err Test.ENOENT)
             (fun _ _ _ => Test.accepted) in
  exists t l,
    prepare RefLib w = (t, Ret l) /\
    sigkeyRingReader l = None /\
    In (EvLog Error ("Error opening signature: " ++ Test.ENOENT)) t /\
    isArmorProtected RefLib (sigkeyRingReader l) =
      ([EvLog Error ("Error processing file:" ++ ErrInvalid)],
       Ret (None, decodes RefLib None)).
Proof.
  intros w.
  apply (open_failure_is_logged_not_fatal RefLib w "sig-text" "key-text"
           (mkResp 200 Test.hello None) None []
           "5891b5b522d5df086d0ff0b110fbd9d21bb4fc7163af34d08286a2e846f6be03"
           Test.ENOENT);
    vm_compute; reflexivity.
Defined.
